(** * Calendar sync, credential handling and reminder scheduling

    A shallow embedding of the TypeScript sources of the calendar
    application:

    - [GoogleCalendarSync.syncCalendar] (components/GoogleCalendarSync.tsx,
      both revisions share the conversion and the merge),
    - [GoogleAuthService] (services/googleAuthService.ts, the revision that
      tracks [tokenExpiry]),
    - [NotificationService] (services/notificationService.ts),
    - [RemindersPanel] and [ReminderModal] (components/).

    Conventions.  JavaScript strings are modelled as [string]; instants
    ([Date.now()], the value of a [Date]) as [Z] milliseconds; an optional
    property ([googleEventId?: string]) as [option]; a thrown exception or a
    rejected promise as [Throw]; the truthiness tests of the source
    ([!x], [x || y], [x && y]) are written out on the modelled type.
    Library functions the sources call but do not define ([parseISO] of
    date-fns, [String.prototype.trim]) are parameters; the browser, the
    consent flow and the providers answer through explicit records of
    outcomes. *)

From Stdlib Require Import ZArith String Ascii Bool Lia.
From stdpp Require Import base option list strings gmap.

Local Open Scope string_scope.
Local Open Scope Z_scope.

(** ** JavaScript values used by the sources *)

Module Js.

Inductive error : Type :=
| TypeError
| ReferenceError
| Error (message : string).

(** The outcome of evaluating an expression or awaiting a promise. *)
Inductive result (A : Type) : Type :=
| Ok (a : A)
| Throw (e : error).
Arguments Ok {A} a.
Arguments Throw {A} e.

Definition bind {A B} (r : result A) (k : A -> result B) : result B :=
  match r with
  | Ok a => k a
  | Throw e => Throw e
  end.

(** [xs.map(f)] where the callback may throw: the first exception aborts
    the whole map. *)
Fixpoint mapM {A B} (f : A -> result B) (xs : list A) : result (list B) :=
  match xs with
  | [] => Ok []
  | x :: xs' =>
      bind (f x) (fun y => bind (mapM f xs') (fun ys => Ok (y :: ys)))
  end.

(** Truthiness of a string: every string but the empty one. *)
Definition truthy (s : string) : bool :=
  match s with
  | EmptyString => false
  | String _ _ => true
  end.

(** Truthiness of an optional string property ([undefined] is falsy). *)
Definition truthy_opt (o : option string) : bool :=
  match o with
  | None => false
  | Some s => truthy s
  end.

(** [o || d] for an optional string [o]. *)
Definition or_else (o : option string) (d : string) : string :=
  match o with
  | None => d
  | Some s => if truthy s then s else d
  end.

(** [s.split(sep)] for a one-character separator: never empty, one more
    piece than there are separators. *)
Fixpoint split (sep : ascii) (s : string) : list string :=
  match s with
  | EmptyString => [EmptyString]
  | String c s' =>
      if Ascii.eqb c sep then EmptyString :: split sep s'
      else match split sep s' with
           | [] => [String c EmptyString]
           | piece :: pieces => String c piece :: pieces
           end
  end.

(** [arr[i].substring(0, n)]: reading a missing index gives [undefined],
    and calling a method on it is a [TypeError]. *)
Definition index_substring (arr : list string) (i n : nat) : result string :=
  match arr !! i with
  | None => Throw TypeError
  | Some piece => Ok (substring 0 n piece)
  end.

(** [arr[0]] of the array returned by [split] (always present). *)
Definition index0 (arr : list string) : string :=
  match arr with
  | [] => EmptyString
  | piece :: _ => piece
  end.

End Js.

#[global] Instance result_ret : MRet Js.result := @Js.Ok.
#[global] Instance result_bind : MBind Js.result :=
  fun A B k r => Js.bind r k.

(** ** types/index.ts *)

Module Event.
Record t : Type := mk {
  id : string;
  title : string;
  date : string;
  startTime : string;
  endTime : string;
  description : string;
  googleEventId : option string
}.
End Event.

Module GoogleEvent.
(** [start: { dateTime }] and [end: { dateTime }] are flattened. *)
Record t : Type := mk {
  id : string;
  summary : string;
  description : option string;
  start_dateTime : string;
  end_dateTime : string
}.
End GoogleEvent.

Module Reminder.
Record t : Type := mk {
  id : string;
  title : string;
  date : string;
  time : string;
  description : option string;
  isComplete : bool;
  notificationSent : bool;
  emailNotification : bool;
  smsNotification : bool;
  phoneNumber : option string
}.

(** [{ ...reminder, notificationSent: b }] *)
Definition with_notificationSent (b : bool) (r : t) : t :=
  mk (id r) (title r) (date r) (time r) (description r) (isComplete r) b
     (emailNotification r) (smsNotification r) (phoneNumber r).

(** [{ ...reminder, isComplete: b }] *)
Definition with_isComplete (b : bool) (r : t) : t :=
  mk (id r) (title r) (date r) (time r) (description r) b
     (notificationSent r) (emailNotification r) (smsNotification r)
     (phoneNumber r).
End Reminder.

#[global] Instance event_eq_dec : EqDecision Event.t.
Proof. solve_decision. Defined.
#[global] Instance google_event_eq_dec : EqDecision GoogleEvent.t.
Proof. solve_decision. Defined.
#[global] Instance reminder_eq_dec : EqDecision Reminder.t.
Proof. solve_decision. Defined.

(** ** components/GoogleCalendarSync.tsx *)

Module GoogleCalendarSync.

Definition T : ascii := "T"%char.

(** The callback of [googleEvents.map(gEvent => ({ ... }))]. *)
Definition convert (gEvent : GoogleEvent.t) : Js.result Event.t :=
  let date := Js.index0 (Js.split T (GoogleEvent.start_dateTime gEvent)) in
  startTime ←
    Js.index_substring (Js.split T (GoogleEvent.start_dateTime gEvent)) 1 5;
  endTime ←
    Js.index_substring (Js.split T (GoogleEvent.end_dateTime gEvent)) 1 5;
  Js.Ok (Event.mk (GoogleEvent.id gEvent)
                  (GoogleEvent.summary gEvent)
                  date startTime endTime
                  (Js.or_else (GoogleEvent.description gEvent) EmptyString)
                  (Some (GoogleEvent.id gEvent))).

Definition convertedEvents (googleEvents : list GoogleEvent.t)
  : Js.result (list Event.t) :=
  Js.mapM convert googleEvents.

(** [e => !e.googleEventId] *)
Definition not_synced (e : Event.t) : bool :=
  negb (Js.truthy_opt (Event.googleEventId e)).

(** [[...events.filter(e => !e.googleEventId), ...convertedEvents]] *)
Definition mergedEvents (events : list Event.t)
    (googleEvents : list GoogleEvent.t) : Js.result (list Event.t) :=
  converted ← convertedEvents googleEvents;
  Js.Ok (List.filter not_synced events ++ converted)%list.

(** [syncCalendar]: the argument handed to [onEventsUpdate], if the call
    is reached.  [fetched] is the outcome of
    [await googleAuthService.getEvents()]. *)
Definition syncCalendar (isConnected : bool) (events : list Event.t)
    (fetched : Js.result (list GoogleEvent.t)) : option (list Event.t) :=
  if negb isConnected then None
  else match (googleEvents ← fetched; mergedEvents events googleEvents) with
       | Js.Ok merged => Some merged
       | Js.Throw _ => None
       end.

(** *** The merge policy as the specification words it *)

(** The characters before the first occurrence of [c]. *)
Fixpoint before (c : ascii) (s : string) : string :=
  match s with
  | EmptyString => EmptyString
  | String a s' => if Ascii.eqb a c then EmptyString
                   else String a (before c s')
  end.

(** The characters after the first occurrence of [c]. *)
Fixpoint after (c : ascii) (s : string) : string :=
  match s with
  | EmptyString => EmptyString
  | String a s' => if Ascii.eqb a c then s' else after c s'
  end.

Fixpoint contains (c : ascii) (s : string) : bool :=
  match s with
  | EmptyString => false
  | String a s' => if Ascii.eqb a c then true else contains c s'
  end.

(** The first five characters of the clock part: what follows the first
    ['T'], up to a further ['T'] if there is one. *)
Definition clock (dateTime : string) : string :=
  substring 0 5 (before T (after T dateTime)).

Definition spec_map (r : GoogleEvent.t) : Event.t :=
  {| Event.id := GoogleEvent.id r;
     Event.title := GoogleEvent.summary r;
     Event.date := before T (GoogleEvent.start_dateTime r);
     Event.startTime := clock (GoogleEvent.start_dateTime r);
     Event.endTime := clock (GoogleEvent.end_dateTime r);
     Event.description :=
       match GoogleEvent.description r with
       | Some d => d
       | None => EmptyString
       end;
     Event.googleEventId := Some (GoogleEvent.id r) |}.

(** An external id that is absent or the empty string. *)
Definition lacks_external_id (e : Event.t) : Prop :=
  Event.googleEventId e = None \/ Event.googleEventId e = Some EmptyString.

#[global] Instance lacks_external_id_dec e : Decision (lacks_external_id e).
Proof. unfold lacks_external_id. apply _. Defined.

Definition spec_merge (L : list Event.t) (R : list GoogleEvent.t)
  : list Event.t :=
  (filter lacks_external_id L ++ map spec_map R)%list.

(** Both [dateTime]s carry the ['T'] that separates date and clock. *)
Definition well_timed (r : GoogleEvent.t) : Prop :=
  contains T (GoogleEvent.start_dateTime r) = true /\
  contains T (GoogleEvent.end_dateTime r) = true.

(** The number of events of [M] that carry the external id [g]. *)
Definition count_external (g : string) (M : list Event.t) : nat :=
  length (filter (fun e => Event.googleEventId e = Some g) M).

(** [M1] and [M2] hold the same events (as sets). *)
Definition same_events (M1 M2 : list Event.t) : Prop :=
  forall e, e ∈ M1 <-> e ∈ M2.

(** Two outcomes agree as sets of events: both fail, or both succeed
    with the same events. *)
Definition same_outcome (r1 r2 : Js.result (list Event.t)) : Prop :=
  match r1, r2 with
  | Js.Ok M1, Js.Ok M2 => same_events M1 M2
  | Js.Throw _, Js.Throw _ => True
  | _, _ => False
  end.

(** *** The scenario of the specification *)

Definition scenario_local : list Event.t :=
  [ Event.mk "1" "Standup" "2024-01-10" "09:00" "09:15" EmptyString None ].

Definition scenario_remote : list GoogleEvent.t :=
  [ GoogleEvent.mk "g1" "Planning" None
      "2024-01-11T10:00:00" "2024-01-11T11:00:00" ].

Definition scenario_expected : list Event.t :=
  [ Event.mk "1" "Standup" "2024-01-10" "09:00" "09:15" EmptyString None;
    Event.mk "g1" "Planning" "2024-01-11" "10:00" "11:00" EmptyString
             (Some "g1") ].

(** A fetched entry whose [dateTime]s hold a date only. *)
Definition date_only_remote : list GoogleEvent.t :=
  [ GoogleEvent.mk "g2" "Holiday" None "2024-01-12" "2024-01-13" ].

(** The same remote entry fetched twice. *)
Definition repeated_remote : list GoogleEvent.t :=
  [ GoogleEvent.mk "g1" "Planning" None
      "2024-01-11T10:00:00" "2024-01-11T11:00:00";
    GoogleEvent.mk "g1" "Planning" None
      "2024-01-11T10:00:00" "2024-01-11T11:00:00" ].

(** A local event whose external id is the empty string. *)
Definition draft_local : list Event.t :=
  [ Event.mk "7" "Draft" "2024-01-10" "09:00" "09:15" EmptyString
             (Some EmptyString) ].

(** A remote entry with an empty id. *)
Definition anonymous_remote : list GoogleEvent.t :=
  [ GoogleEvent.mk EmptyString "Untitled" None
      "2024-01-11T10:00:00" "2024-01-11T11:00:00" ].

End GoogleCalendarSync.

(** ** Asynchronous code: state, external calls, exceptions, promises

    An [async] function is a state transformer that records the external
    calls it makes and ends in a settled promise (fulfilled or rejected) or
    in one that never settles. *)

Module Async.

Inductive completion (A : Type) : Type :=
| Settled (r : Js.result A)
| Pending.
Arguments Settled {A} r.
Arguments Pending {A}.

Record run (S E A : Type) : Type := Run {
  final : S;
  calls : list E;
  outcome : completion A
}.
Arguments Run {S E A} final calls outcome.
Arguments final {S E A} r.
Arguments calls {S E A} r.
Arguments outcome {S E A} r.

Definition M (S E A : Type) : Type := S -> run S E A.

Section Ops.
Context {S E : Type}.

Definition ret {A} (a : A) : M S E A :=
  fun s => Run s [] (Settled (Js.Ok a)).

(** Sequencing: an exception or a promise that never settles ends the
    function; the calls made so far stay made. *)
Definition bind {A B} (m : M S E A) (k : A -> M S E B) : M S E B :=
  fun s =>
    match m s with
    | Run s1 l1 (Settled (Js.Ok a)) =>
        let r := k a s1 in
        Run (final r) (l1 ++ calls r)%list (outcome r)
    | Run s1 l1 (Settled (Js.Throw e)) => Run s1 l1 (Settled (Js.Throw e))
    | Run s1 l1 Pending => Run s1 l1 Pending
    end.

Definition throw {A} (e : Js.error) : M S E A :=
  fun s => Run s [] (Settled (Js.Throw e)).

(** [await p] for a promise whose completion is known. *)
Definition await {A} (c : completion A) : M S E A :=
  fun s => Run s [] c.

Definition lift {A} (r : Js.result A) : M S E A := await (Settled r).

Definition get : M S E S := fun s => Run s [] (Settled (Js.Ok s)).

Definition modify (f : S -> S) : M S E unit :=
  fun s => Run (f s) [] (Settled (Js.Ok tt)).

(** An external call (network request, provider SDK, browser API). *)
Definition perform (c : E) : M S E unit :=
  fun s => Run s [c] (Settled (Js.Ok tt)).

(** [try { body } catch (err) { handler }]; a promise that never
    settles inside [body] is not an exception. *)
Definition try_catch {A} (body : M S E A) (handler : Js.error -> M S E A)
  : M S E A :=
  fun s =>
    match body s with
    | Run s1 l1 (Settled (Js.Throw e)) =>
        let r := handler e s1 in
        Run (final r) (l1 ++ calls r)%list (outcome r)
    | r => r
    end.
End Ops.

(** Every external call of [m] satisfies [P]. *)
Definition stays_in {S E A} (P : E -> Prop) (m : M S E A) : Prop :=
  forall s x, x ∈ calls (m s) -> P x.

End Async.

#[global] Instance async_ret {S E} : MRet (Async.M S E) := @Async.ret S E.
#[global] Instance async_bind {S E} : MBind (Async.M S E) :=
  fun A B k m => Async.bind m k.

(** ** services/googleAuthService.ts *)

Module GoogleAuthService.
Import Async.

(** The private fields of the service; [tokenClient] records whether the
    token client has been created. *)
Record state : Type := mkState {
  tokenClient : bool;
  accessToken : option string;
  tokenExpiry : option Z
}.

Inductive method : Type := GET | POST.

Inductive call : Type :=
| TokenRequest                          (* tokenClient.requestAccessToken *)
| Fetch (m : method) (bearer : string). (* fetch of the calendar endpoint *)

#[global] Instance method_eq_dec : EqDecision method.
Proof. solve_decision. Defined.
#[global] Instance call_eq_dec : EqDecision call.
Proof. solve_decision. Defined.

(** What the consent flow answers to one [requestAccessToken]. *)
Inductive token_response : Type :=
| Granted (access_token : string) (expires_in : Z) (at_ : Z)
    (* callback without error; [at_] is [Date.now()] in the callback *)
| Rejected (e : Js.error)
    (* callback with [response.error], or [requestAccessToken] throws *)
| Silent.
    (* only [error_callback] runs, or nothing: the promise never settles *)

(** The [error] property of an error body. *)
Record error_obj : Type := mkError {
  code : option Z;
  status : option string;
  message : option string
}.

(** A response of the calendar endpoint with what [response.json()]
    yields: the data when [response.ok], the [error] property of the body
    otherwise. *)
Inductive http_response (A : Type) : Type :=
| HttpOk (json : Js.result A)
| HttpError (json : Js.result (option error_obj)).
Arguments HttpOk {A} json.
Arguments HttpError {A} json.

(** The surroundings of one call of the service. *)
Record env (A : Type) : Type := mkEnv {
  now : Z;                                  (* Date.now() *)
  init_result : completion unit;            (* script load and client id *)
  token : token_response;
  fetched : completion (http_response A)    (* what [fetch] resolves to *)
}.
Arguments now {A} e.
Arguments init_result {A} e.
Arguments token {A} e.
Arguments fetched {A} e.

(** [init]; [loaded] is the outcome of loading the provider script and
    reading the client id. *)
Definition init (loaded : completion unit) : M state call unit :=
  st ← get;
  if tokenClient st then mret tt
  else
    await loaded;;
    modify (fun st => mkState true (accessToken st) (tokenExpiry st)).

(** [requestAccess] up to the token request: the executor of the promise
    registers the callback and calls [requestAccessToken]. *)
Definition requestAccess_start (loaded : completion unit)
  : M state call unit :=
  st ← get;
  (if tokenClient st then mret tt else init loaded);;
  perform TokenRequest.

(** The callback installed by [requestAccess]. *)
Definition requestAccess_settle (answer : token_response)
  : M state call unit :=
  match answer with
  | Granted access_token expires_in at_ =>
      modify (fun st => mkState (tokenClient st) (Some access_token)
                                (Some (at_ + expires_in * 1000)))
  | Rejected err => throw err
  | Silent => await Pending
  end.

Definition requestAccess (loaded : completion unit)
    (answer : token_response) : M state call unit :=
  requestAccess_start loaded;;
  requestAccess_settle answer.

(** [!this.tokenExpiry || Date.now() >= this.tokenExpiry - 60000] *)
Definition needs_refresh (now : Z) (st : state) : bool :=
  match tokenExpiry st with
  | None => true
  | Some expiry => (expiry =? 0) || (expiry - 60000 <=? now)
  end.

Definition refreshTokenIfNeeded {A} (e : env A) : M state call unit :=
  st ← get;
  if needs_refresh (now e) st
  then requestAccess (init_result e) (token e)
  else mret tt.

(** [isAuthenticated] *)
Definition isAuthenticated (now : Z) (st : state) : bool :=
  Js.truthy_opt (accessToken st) &&
  match tokenExpiry st with
  | None => false
  | Some expiry => negb (expiry =? 0) && (now <? expiry)
  end.

(** [error.error?.status === 'UNAUTHENTICATED' || error.error?.code === 401] *)
Definition unauthenticated (error : option error_obj) : bool :=
  match error with
  | None => false
  | Some err =>
      bool_decide (status err = Some "UNAUTHENTICATED")
      || bool_decide (code err = Some 401)
  end.

(** [error.error?.message || fallback] *)
Definition message_or (error : option error_obj) (fallback : string)
  : string :=
  match error with
  | None => fallback
  | Some err => Js.or_else (message err) fallback
  end.

Definition clear_credential : M state call unit :=
  modify (fun st => mkState (tokenClient st) None None).

(** [if (!response.ok) { ... }] of both calendar calls. *)
Definition reject_response {B} (json : Js.result (option error_obj))
    (fallback : string) : M state call B :=
  error ← lift json;
  if unauthenticated error then
    clear_credential;;
    throw (Js.Error "authentication expired")
  else throw (Js.Error (message_or error fallback)).

(** [this.accessToken] once it passed [if (!this.accessToken) throw]. *)
Definition bearer_token : M state call string :=
  st ← get;
  match accessToken st with
  | Some tok =>
      if Js.truthy tok then mret tok
      else throw (Js.Error "Not authenticated with Google Calendar")
  | None => throw (Js.Error "Not authenticated with Google Calendar")
  end.

(** [getEvents]; the surrounding [try]/[catch] logs and rethrows. *)
Definition getEvents (e : env (option (list GoogleEvent.t)))
  : M state call (list GoogleEvent.t) :=
  refreshTokenIfNeeded e;;
  tok ← bearer_token;
  perform (Fetch GET tok);;
  response ← await (fetched e);
  match response with
  | HttpError json => reject_response json "Failed to fetch events"
  | HttpOk json =>
      items ← lift json;
      mret (default [] items)
  end.

(** [addEvent]; the request body is built from [event] and does not
    influence the control flow. *)
Definition addEvent (event : Event.t) (e : env GoogleEvent.t)
  : M state call GoogleEvent.t :=
  refreshTokenIfNeeded e;;
  tok ← bearer_token;
  perform (Fetch POST tok);;
  response ← await (fetched e);
  match response with
  | HttpError json => reject_response json "Failed to add event"
  | HttpOk json => lift json
  end.

(** [logout] *)
Definition logout : M state call unit := clear_credential.

(** Several callers enter [refreshTokenIfNeeded] before any token
    response arrives.  With the token client created, nothing is awaited
    before the token request: each caller runs up to its request in turn,
    at its own [Date.now()]. *)
Definition refresh_start (loaded : completion unit) (now : Z)
  : M state call unit :=
  st ← get;
  if needs_refresh now st then requestAccess_start loaded else mret tt.

Fixpoint callers_arrive (loaded : completion unit) (nows : list Z)
  : M state call unit :=
  match nows with
  | [] => mret tt
  | now :: rest => refresh_start loaded now;; callers_arrive loaded rest
  end.

Definition token_requests (l : list call) : nat :=
  length (filter (fun c => c = TokenRequest) l).

Definition is_fetch (c : call) : bool :=
  match c with
  | Fetch _ _ => true
  | TokenRequest => false
  end.

Definition fetches (l : list call) : list call := List.filter is_fetch l.

(** How a calendar call continues after the validity check: nothing is
    fetched before the check has settled, and at most one request is
    made, with the token the check left in place. *)
Definition continues_check {B} (checked : run state call unit)
    (r : run state call B) (m : method) : Prop :=
  (exists tail,
      calls r = (calls checked ++ tail)%list
      /\ fetches (calls checked) = []
      /\ (tail = []
          \/ exists tok, tail = [Fetch m tok]
               /\ outcome checked = Settled (Js.Ok tt)
               /\ accessToken (final checked) = Some tok))
  /\ (forall err, outcome checked = Settled (Js.Throw err) ->
        outcome r = Settled (Js.Throw err) /\ fetches (calls r) = [])
  /\ (outcome checked = Pending ->
        outcome r = Pending /\ fetches (calls r) = []).

(** *** Concrete surroundings used below *)

(** A credential that expires 30 seconds after [instant_0]. *)
Definition instant_0 : Z := 1704967200000.

Definition expiring_state : state :=
  mkState true (Some "ya29.token") (Some (instant_0 + 30000)).

(** A credential with an hour left. *)
Definition fresh_state : state :=
  mkState true (Some "ya29.token") (Some (instant_0 + 3600000)).

Definition unauthenticated_error : error_obj :=
  mkError (Some 401) (Some "UNAUTHENTICATED") (Some "Invalid Credentials").

Definition unauthenticated_body : option error_obj :=
  Some unauthenticated_error.

(** The remote rejects the request with a 401. *)
Definition rejecting_env {A} : env A :=
  mkEnv A instant_0 (Settled (Js.Ok tt)) Silent
    (Settled (Js.Ok (HttpError (Js.Ok unauthenticated_body)))).

(** The user declines the consent prompt of the refresh. *)
Definition declining_env {A} : env A :=
  mkEnv A instant_0 (Settled (Js.Ok tt))
    (Rejected (Js.Error "access_denied"))
    (Settled (Js.Ok (HttpError (Js.Ok unauthenticated_body)))).

Definition sample_event : Event.t :=
  Event.mk "1" "Standup" "2024-01-10" "09:00" "09:15" EmptyString None.

End GoogleAuthService.

(** ** services/notificationService.ts *)

Module NotificationService.
Import Async.

(** The module constants read from the build environment
    ([import.meta.env.VITE_... || '']). *)
Record config : Type := mkConfig {
  EMAILJS_SERVICE_ID : string;
  EMAILJS_TEMPLATE_ID : string;
  EMAILJS_PUBLIC_KEY : string;
  TWILIO_ACCOUNT_SID : string;
  TWILIO_AUTH_TOKEN : string;
  TWILIO_FROM_NUMBER : string
}.

Inductive channel : Type := Local | Email | SMS.

(** What a dispatch does to the outside.  [Enter c] marks that control
    entered the [try] block of channel [c]. *)
Inductive event : Type :=
| Enter (c : channel)
| NewNotification        (* new Notification(title, ...) *)
| EmailjsSend            (* emailjs.send(...) *)
| TwilioFetch            (* fetch(TWILIO_API_URL ...) *)
| Toast.                 (* toast({ title: "Reminder!", ... }) *)

#[global] Instance channel_eq_dec : EqDecision channel.
Proof. solve_decision. Defined.
#[global] Instance event_eq_dec : EqDecision event.
Proof. solve_decision. Defined.

Record twilio_response : Type := mkTwilio {
  ok : bool;                              (* response.ok *)
  json : completion (option string)       (* response.json(), .message *)
}.

(** The surroundings of one dispatch: the browser and the providers. *)
Record world : Type := mkWorld {
  notification_defined : bool;    (* typeof Notification !== 'undefined' *)
  permission_granted : bool;      (* Notification.permission === "granted" *)
  new_notification : Js.result unit;
  import_for_email : completion unit;   (* await import(...) *)
  import_for_sms : completion unit;
  userName : Js.result (option string); (* localStorage.getItem('userName') *)
  emailjs_send : completion unit;
  btoa : Js.result unit;
  twilio_fetch : completion twilio_response
}.

Definition M := Async.M unit event.

Definition sendEmailNotification (cfg : config) (w : world)
    (reminder : Reminder.t) (userEmail : string) (userName : option string)
  : M bool :=
  try_catch
    (if negb (Js.truthy (EMAILJS_SERVICE_ID cfg))
        || negb (Js.truthy (EMAILJS_TEMPLATE_ID cfg))
        || negb (Js.truthy (EMAILJS_PUBLIC_KEY cfg))
     then mret false
     else
       perform EmailjsSend;;
       await (emailjs_send w);;
       mret true)
    (fun _ => mret false).

Definition sendSMSNotification (cfg : config) (w : world)
    (reminder : Reminder.t) (phoneNumber : string) : M bool :=
  try_catch
    (if negb (Js.truthy (TWILIO_ACCOUNT_SID cfg))
        || negb (Js.truthy (TWILIO_AUTH_TOKEN cfg))
        || negb (Js.truthy (TWILIO_FROM_NUMBER cfg))
     then mret false
     else
       lift (btoa w);;
       perform TwilioFetch;;
       response ← await (twilio_fetch w);
       result ← await (json response);
       if negb (ok response)
       then throw (Js.Error (Js.or_else result "Failed to send SMS"))
       else mret true)
    (fun _ => mret false).


Definition all_configured : config :=
  mkConfig "service_1" "template_1" "public_key_1"
           "AC0001" "auth_token_1" "+15550100".

(** Notifications are allowed and the SMS provider accepts, but the email
    provider rejects the send. *)
Definition email_failing_world : world :=
  mkWorld true true (Js.Ok tt)
          (Settled (Js.Ok tt)) (Settled (Js.Ok tt)) (Js.Ok None)
          (Settled (Js.Throw (Js.Error "The service is unavailable")))
          (Js.Ok tt)
          (Settled (Js.Ok (mkTwilio true (Settled (Js.Ok None))))).

(** The three values the email guard tests, and the three of the SMS
    guard. *)
Definition email_configured (cfg : config) : bool :=
  Js.truthy (EMAILJS_SERVICE_ID cfg)
  && Js.truthy (EMAILJS_TEMPLATE_ID cfg)
  && Js.truthy (EMAILJS_PUBLIC_KEY cfg).

Definition sms_configured (cfg : config) : bool :=
  Js.truthy (TWILIO_ACCOUNT_SID cfg)
  && Js.truthy (TWILIO_AUTH_TOKEN cfg)
  && Js.truthy (TWILIO_FROM_NUMBER cfg).

(** What the reminder asks for and the configuration allows: the email
    channel when email is requested, the SMS channel when SMS is requested
    with a phone number, a provider only when it is configured. *)
Definition requested (cfg : config) (reminder : Reminder.t) (x : event)
  : Prop :=
  match x with
  | Enter Email => Reminder.emailNotification reminder = true
  | EmailjsSend =>
      Reminder.emailNotification reminder = true
      /\ email_configured cfg = true
  | Enter SMS =>
      Reminder.smsNotification reminder = true
      /\ Js.truthy_opt (Reminder.phoneNumber reminder) = true
  | TwilioFetch =>
      Reminder.smsNotification reminder = true
      /\ Js.truthy_opt (Reminder.phoneNumber reminder) = true
      /\ sms_configured cfg = true
  | Enter Local | NewNotification | Toast => True
  end.

(** Nothing is configured. *)
Definition unconfigured : config :=
  mkConfig EmptyString EmptyString EmptyString
           EmptyString EmptyString EmptyString.

(** As above, but the email provider never answers. *)
Definition email_hanging_world : world :=
  mkWorld true true (Js.Ok tt)
          (Settled (Js.Ok tt)) (Settled (Js.Ok tt)) (Js.Ok None)
          Pending
          (Js.Ok tt)
          (Settled (Js.Ok (mkTwilio true (Settled (Js.Ok None))))).

End NotificationService.

(** ** components/ReminderModal.tsx *)

Module ReminderModal.

(** The fields of the form ([useState]). *)
Record form : Type := mkForm {
  title : string;
  date : string;
  time : string;
  description : string;
  emailNotification : bool;
  smsNotification : bool;
  phoneNumber : string
}.

(** What [onSave] receives: a reminder with the id of the edited one, or
    one that still lacks its id. *)
Inductive saved : Type :=
| Edited (r : Reminder.t)
| Created (r : string -> Reminder.t).

Section Modal.
(** [String.prototype.trim] *)
Variable trim : string -> string.

Definition reminderData (f : form) (id : string) : Reminder.t :=
  {| Reminder.id := id;
     Reminder.title := trim (title f);
     Reminder.date := date f;
     Reminder.time := time f;
     Reminder.description := Some (trim (description f));
     Reminder.isComplete := false;
     Reminder.notificationSent := false;
     Reminder.emailNotification := emailNotification f;
     Reminder.smsNotification := smsNotification f;
     Reminder.phoneNumber :=
       if smsNotification f then Some (phoneNumber f) else None |}.

(** [handleSubmit]: [None] when the required fields are missing and
    nothing is saved. *)
Definition handleSubmit (f : form) (editingReminder : option Reminder.t)
  : option saved :=
  if negb (Js.truthy (trim (title f)))
     || negb (Js.truthy (date f))
     || negb (Js.truthy (time f))
  then None
  else match editingReminder with
       | Some editing =>
           Some (Edited (reminderData f (Reminder.id editing)))
       | None => Some (Created (reminderData f))
       end.
End Modal.

End ReminderModal.

(** ** components/RemindersPanel.tsx *)

Module RemindersPanel.
Import Async NotificationService.

(** The component state and the entry [reminders_<userEmail>] of
    [localStorage]. *)
Record panel : Type := mkPanel {
  reminders : list Reminder.t;
  stored : option (list Reminder.t)
}.

(** [saveReminders] *)
Definition saveReminders (newReminders : list Reminder.t) (p : panel)
  : panel :=
  {| reminders := newReminders; stored := Some newReminders |}.

(** [handleAddReminder]; [id] is [Date.now().toString()]. *)
Definition handleAddReminder (reminder : string -> Reminder.t)
    (id : string) (p : panel) : panel :=
  saveReminders (reminders p ++ [reminder id])%list p.

(** [handleUpdateReminder] *)
Definition handleUpdateReminder (updatedReminder : Reminder.t) (p : panel)
  : panel :=
  saveReminders
    (map (fun reminder =>
            if decide (Reminder.id reminder = Reminder.id updatedReminder)
            then updatedReminder else reminder)
         (reminders p)) p.

(** [handleDeleteReminder] *)
Definition handleDeleteReminder (reminderId : string) (p : panel) : panel :=
  saveReminders
    (filter (fun reminder => Reminder.id reminder <> reminderId)
            (reminders p)) p.

(** [toggleReminderComplete] *)
Definition toggleReminderComplete (reminderId : string) (p : panel)
  : panel :=
  saveReminders
    (map (fun reminder =>
            if decide (Reminder.id reminder = reminderId)
            then Reminder.with_isComplete
                   (negb (Reminder.isComplete reminder)) reminder
            else reminder)
         (reminders p)) p.

(** The modal opened on a stored reminder and submitted:
    [onSave] is [handleUpdateReminder] while a reminder is being edited,
    [handleAddReminder] otherwise. *)
Definition submitModal (trim : string -> string) (f : ReminderModal.form)
    (editingReminder : option Reminder.t) (freshId : string) (p : panel)
  : panel :=
  match ReminderModal.handleSubmit trim f editingReminder with
  | None => p
  | Some (ReminderModal.Edited r) => handleUpdateReminder r p
  | Some (ReminderModal.Created r) => handleAddReminder r freshId p
  end.

Section Panel.
(** [parseISO] of date-fns: [None] is an invalid date. *)
Variable parseISO : string -> option Z.
Variable cfg : config.
Variable userEmail : string.

(** [sendNotification], first block: the browser notification. *)
Definition localChannel (w : world) (reminder : Reminder.t) : M unit :=
  try_catch
    (perform (Enter Local);;
     if notification_defined w && permission_granted w
     then perform NewNotification;; lift (new_notification w)
     else if notification_defined w then mret tt
          else throw Js.ReferenceError)
    (fun _ => mret tt).

(** Second block: the email notification. *)
Definition emailChannel (w : world) (reminder : Reminder.t) : M unit :=
  if Reminder.emailNotification reminder
  then try_catch
         (perform (Enter Email);;
          await (import_for_email w);;
          name ← lift (userName w);
          sendEmailNotification cfg w reminder userEmail name;;
          mret tt)
         (fun _ => mret tt)
  else mret tt.

(** Third block: the SMS notification. *)
Definition smsChannel (w : world) (reminder : Reminder.t) : M unit :=
  if Reminder.smsNotification reminder
     && Js.truthy_opt (Reminder.phoneNumber reminder)
  then try_catch
         (perform (Enter SMS);;
          await (import_for_sms w);;
          sendSMSNotification cfg w reminder
            (default EmptyString (Reminder.phoneNumber reminder));;
          mret tt)
         (fun _ => mret tt)
  else mret tt.

(** [sendNotification] *)
Definition sendNotification (w : world) (reminder : Reminder.t) : M unit :=
  localChannel w reminder;;
  emailChannel w reminder;;
  smsChannel w reminder;;
  perform Toast.

(** [isAfter(now, parseISO(`${date}T${time}`))]: strictly later; an
    invalid date is after nothing. *)
Definition isAfter_due (now : Z) (reminder : Reminder.t) : bool :=
  match parseISO (Reminder.date reminder ++ "T" ++ Reminder.time reminder)
  with
  | Some reminderDateTime => reminderDateTime <? now
  | None => false
  end.

(** The guard of [checkReminders]: neither notified nor complete, and
    past its instant. *)
Definition fires (now : Z) (reminder : Reminder.t) : bool :=
  negb (Reminder.notificationSent reminder)
  && negb (Reminder.isComplete reminder)
  && isAfter_due now reminder.

(** One dispatch: the reminder handed to [sendNotification] and what
    that call does; the caller does not await it. *)
Definition dispatch : Type := Reminder.t * run unit event unit.

(** The callback of [reminders.map(reminder => ...)] in
    [checkReminders]. *)
Definition checkReminder (w : Reminder.t -> world) (now : Z)
    (reminder : Reminder.t) : Reminder.t * option dispatch :=
  if negb (Reminder.notificationSent reminder)
     && negb (Reminder.isComplete reminder)
  then
    if isAfter_due now reminder
    then (Reminder.with_notificationSent true reminder,
          Some (reminder, sendNotification (w reminder) reminder tt))
    else (reminder, None)
  else (reminder, None).

(** [updatedReminders.some((r, i) =>
      r.notificationSent !== reminders[i].notificationSent)] *)
Definition flag_changed (updatedReminders reminders : list Reminder.t)
  : bool :=
  existsb
    (fun '(r, r0) =>
       negb (Bool.eqb (Reminder.notificationSent r)
                      (Reminder.notificationSent r0)))
    (zip updatedReminders reminders).

Record pass : Type := mkPass {
  next : panel;                           (* the panel after the pass *)
  dispatched : list dispatch;             (* sendNotification calls *)
  written : option (list Reminder.t)      (* localStorage.setItem *)
}.

(** [checkReminders] *)
Definition checkReminders (w : Reminder.t -> world) (now : Z) (p : panel)
  : pass :=
  let results := map (checkReminder w now) (reminders p) in
  let updatedReminders := map fst results in
  let sends := omap snd results in
  if flag_changed updatedReminders (reminders p)
  then mkPass (saveReminders updatedReminders p) sends
              (Some updatedReminders)
  else mkPass p sends None.

(** What happens to the panel while the component is mounted and nobody
    edits: due-check passes, each at its own instant, and renders, whose
    [reminders.sort(...)] reorders the array of the state in place.  Of
    the order a render chooses only this is used: it is a permutation.
    [runs p log q]: from [p] the panel reaches [q], and [log] lists the
    dispatches of the passes in order. *)
Inductive runs : panel -> list dispatch -> panel -> Prop :=
| runs_done (p : panel) : runs p [] p
| runs_render (p : panel) (sorted : list Reminder.t) (log : list dispatch)
    (q : panel) :
    sorted ≡ₚ reminders p ->
    runs (mkPanel sorted (stored p)) log q ->
    runs p log q
| runs_pass (p : panel) (w : Reminder.t -> world) (now : Z)
    (log : list dispatch) (q : panel) :
    runs (next (checkReminders w now p)) log q ->
    runs p (dispatched (checkReminders w now p) ++ log)%list q.

End Panel.

(** *** Concrete reminders used below *)

Definition nine_o_clock : Z := 1704877200000.

(** A stand-in for [parseISO] that knows one instant. *)
Definition sample_parseISO (s : string) : option Z :=
  if String.eqb s "2024-01-10T09:00" then Some nine_o_clock else None.

Definition standup : Reminder.t :=
  Reminder.mk "r1" "Standup" "2024-01-10" "09:00" None false false
              true true (Some "+15550123").

Definition standup_panel : panel := mkPanel [standup] (Some [standup]).

Definition user : string := "user@example.com".

(** The standup reminder after it has been notified. *)
Definition notified_standup : Reminder.t :=
  Reminder.with_notificationSent true standup.

Definition notified_panel : panel :=
  mkPanel [notified_standup] (Some [notified_standup]).

Definition rescheduling : ReminderModal.form :=
  ReminderModal.mkForm "Standup" "2024-01-11" "10:30" EmptyString
    true false EmptyString.

(** What the form above saves when it edits the standup reminder. *)
Definition rescheduled_standup : Reminder.t :=
  ReminderModal.reminderData (fun s => s) rescheduling "r1".

End RemindersPanel.

(** ** components/EventModal.tsx *)

Module EventModal.

(** The fields of the form ([useState]). *)
Record form : Type := mkForm {
  title : string;
  date : string;
  startTime : string;
  endTime : string;
  description : string
}.

(** What [handleSubmit] does: one of the two refusals (a toast, nothing
    saved), or [onSave] with the event of the form, which carries the id
    of the edited event or still lacks its id. *)
Inductive submission : Type :=
| MissingInformation
| InvalidTime
| Edited (e : Event.t)
| Created (e : string -> Event.t).

Section Modal.
(** [String.prototype.trim] *)
Variable trim : string -> string.

(** [{ ...eventData, id }]: the object literal has no [googleEventId]. *)
Definition eventData (f : form) (id : string) : Event.t :=
  {| Event.id := id;
     Event.title := trim (title f);
     Event.date := date f;
     Event.startTime := startTime f;
     Event.endTime := endTime f;
     Event.description := trim (description f);
     Event.googleEventId := None |}.

(** [handleSubmit]; [startTime >= endTime] compares the two strings by
    their characters. *)
Definition handleSubmit (f : form) (editingEvent : option Event.t)
  : submission :=
  if negb (Js.truthy (trim (title f)))
     || negb (Js.truthy (date f))
     || negb (Js.truthy (startTime f))
     || negb (Js.truthy (endTime f))
  then MissingInformation
  else if String.leb (endTime f) (startTime f)
  then InvalidTime
  else match editingEvent with
       | Some editing => Edited (eventData f (Event.id editing))
       | None => Created (eventData f)
       end.
End Modal.

(** The value of an [<input type="time">]: two digits, a colon, two
    digits. *)
Definition digit (d : nat) : ascii := ascii_of_nat (48 + d).

Definition hhmm (h m : nat) : string :=
  String (digit (h / 10)) (String (digit (h mod 10))
    (String ":"%char
      (String (digit (m / 10)) (String (digit (m mod 10)) EmptyString)))).

End EventModal.

(** ** pages/Calendar.tsx and components/Navbar.tsx *)

Module CalendarPage.

(** The [events] of the component state, and what [localStorage] holds:
    [user] is the email of the stored user record, if there is one, and
    [stored] maps an email to the events under the key [events_<email>]. *)
Record page : Type := mkPage {
  events : list Event.t;
  user : option string;
  stored : gmap string (list Event.t)
}.

(** [saveEvents]: without a user record nothing happens, the state is not
    set either. *)
Definition saveEvents (newEvents : list Event.t) (p : page) : page :=
  match user p with
  | Some email => mkPage newEvents (user p) (<[email := newEvents]> (stored p))
  | None => p
  end.

(** The effect that loads the events when the page is mounted. *)
Definition loadEvents (p : page) : page :=
  match user p with
  | Some email =>
      match stored p !! email with
      | Some userEvents => mkPage userEvents (user p) (stored p)
      | None => p
      end
  | None => p
  end.

(** [handleAddEvent]; [id] is [Date.now().toString()]. *)
Definition handleAddEvent (event : string -> Event.t) (id : string)
    (p : page) : page :=
  saveEvents (events p ++ [event id])%list p.

(** [handleUpdateEvent] *)
Definition handleUpdateEvent (updatedEvent : Event.t) (p : page) : page :=
  saveEvents
    (map (fun event =>
            if decide (Event.id event = Event.id updatedEvent)
            then updatedEvent else event)
         (events p)) p.

(** [handleDeleteEvent] *)
Definition handleDeleteEvent (eventId : string) (p : page) : page :=
  saveEvents
    (filter (fun event => Event.id event <> eventId) (events p)) p.

(** [onEventsUpdate={setEvents}]: the state is set, nothing is stored. *)
Definition setEvents (newEvents : list Event.t) (p : page) : page :=
  mkPage newEvents (user p) (stored p).

(** [handleLogout] of the navigation bar removes the user record. *)
Definition handleLogout (p : page) : page :=
  mkPage (events p) None (stored p).

(** The event modal submitted: [onSave] is [handleUpdateEvent] while an
    event is being edited, [handleAddEvent] otherwise. *)
Definition submitModal (trim : string -> string) (f : EventModal.form)
    (editingEvent : option Event.t) (freshId : string) (p : page) : page :=
  match EventModal.handleSubmit trim f editingEvent with
  | EventModal.Edited e => handleUpdateEvent e p
  | EventModal.Created e => handleAddEvent e freshId p
  | EventModal.MissingInformation | EventModal.InvalidTime => p
  end.

(** The page mounted anew (a reload): the state starts empty and the
    effect loads what is stored. *)
Definition mount (p : page) : page :=
  loadEvents (mkPage [] (user p) (stored p)).


(** A synced event as the merge leaves it, and the form that moves it. *)
Definition planning : Event.t :=
  Event.mk "g1" "Planning" "2024-01-11" "10:00" "11:00" EmptyString
           (Some "g1").

Definition moved_planning : EventModal.form :=
  EventModal.mkForm "Planning" "2024-01-11" "14:00" "15:00" EmptyString.

Definition signed_in : page :=
  mkPage [planning] (Some "user@example.com") ∅.

End CalendarPage.

(** ** components/GoogleCalendarSync.tsx: the component *)

Module SyncComponent.
Import Async GoogleAuthService.

(** [needle] occurs in [hay] ([hay.includes(needle)]). *)
Fixpoint includes (needle hay : string) : bool :=
  if String.prefix needle hay then true
  else match hay with
       | EmptyString => false
       | String _ rest => includes needle rest
       end.

(** [error.message]; [builtin] is the text the engine gives to the errors
    it raises itself. *)
Definition message_of (builtin : string) (e : Js.error) : string :=
  match e with
  | Js.Error message => message
  | Js.TypeError | Js.ReferenceError => builtin
  end.

(** The state of the component ([useState]). *)
Record component : Type := mkComponent {
  isConnected : bool;
  isLoading : bool;
  lastSyncTime : option Z
}.

Inductive toast : Type :=
| Connected
| ConnectionCancelled
| PopupBlocked
| ConnectionFailed (description : string)
| Disconnected
| CalendarSynced
| AuthenticationExpired
| SyncFailed (description : string).

(** What a handler of the component leaves behind: the component state,
    the service, the requests made, the argument of [onEventsUpdate] if it
    was called, the toasts shown, and whether the handler returned. *)
Record result : Type := mkResult {
  after : component;
  service : state;
  requests : list call;
  updated : option (list Event.t);
  toasts : list toast;
  returned : bool
}.

Section Component.
Variable builtin : string.

(** [syncCalendar] (the revision that handles the expired
    authentication).  [c] is the state of the render whose closure runs;
    [synced_at] is [new Date()] after the merge. *)
Definition syncCalendar (c : component) (events : list Event.t)
    (e : env (option (list GoogleEvent.t))) (synced_at : Z) (st : state)
  : result :=
  if negb (isConnected c) then mkResult c st [] None [] true
  else
    let r := getEvents e st in
    match outcome r with
    | Pending =>
        mkResult (mkComponent (isConnected c) true (lastSyncTime c))
                 (final r) (calls r) None [] false
    | Settled fetched =>
        match (googleEvents ← fetched;
               GoogleCalendarSync.mergedEvents events googleEvents) with
        | Js.Ok mergedEvents =>
            mkResult (mkComponent (isConnected c) false (Some synced_at))
                     (final r) (calls r) (Some mergedEvents)
                     [CalendarSynced] true
        | Js.Throw error =>
            if includes "authentication expired" (message_of builtin error)
            then mkResult (mkComponent false false (lastSyncTime c))
                          (final r) (calls r) None
                          [AuthenticationExpired] true
            else mkResult (mkComponent (isConnected c) false (lastSyncTime c))
                          (final r) (calls r) None
                          [SyncFailed
                             (if Js.truthy (message_of builtin error)
                              then message_of builtin error
                              else "Failed to sync with Google Calendar. Please try again.")]
                          true
        end
    end.

(** The [catch] block of [connectGoogleCalendar]. *)
Definition connection_toast (error : Js.error) : toast :=
  if String.eqb (message_of builtin error) "access_denied"
  then ConnectionCancelled
  else if includes "popup" (message_of builtin error) then PopupBlocked
  else ConnectionFailed
         (if Js.truthy (message_of builtin error)
          then message_of builtin error
          else "Failed to connect to Google Calendar. Please try again.").

(** The service calls of [connectGoogleCalendar] up to the test of
    [isAuthenticated]; [checked_at] is [Date.now()] in that test. *)
Definition authorize (clientId : bool) (loaded : completion unit)
    (answer : token_response) (checked_at : Z) : M state call unit :=
  (if clientId then mret tt
   else throw (Js.Error "Google Calendar API client id not configured. Please set VITE_GOOGLE_CLIENT_ID in your .env file."));;
  init loaded;;
  requestAccess loaded answer;;
  st ← get;
  if isAuthenticated checked_at st then mret tt
  else throw (Js.Error "Failed to authenticate with Google Calendar").

(** [connectGoogleCalendar].  The [syncCalendar] it awaits is the one of
    its own render: it reads the [isConnected] of [c], whatever
    [setIsConnected(true)] has just scheduled. *)
Definition connectGoogleCalendar (c : component) (events : list Event.t)
    (clientId : bool) (loaded : completion unit) (answer : token_response)
    (checked_at : Z) (e : env (option (list GoogleEvent.t)))
    (synced_at : Z) (st : state) : result :=
  let a := authorize clientId loaded answer checked_at st in
  match outcome a with
  | Pending =>
      mkResult (mkComponent (isConnected c) true (lastSyncTime c))
               (final a) (calls a) None [] false
  | Settled (Js.Throw error) =>
      mkResult (mkComponent false false (lastSyncTime c))
               (final a) (calls a) None [connection_toast error] true
  | Settled (Js.Ok _) =>
      let s := syncCalendar c events e synced_at (final a) in
      if isConnected c
      then mkResult (mkComponent (isConnected (after s))
                       (if returned s then false else true)
                       (lastSyncTime (after s)))
                    (service s) (calls a ++ requests s)%list (updated s)
                    (Connected :: toasts s) (returned s)
      else mkResult (mkComponent true false (lastSyncTime c))
                    (service s) (calls a ++ requests s)%list (updated s)
                    (Connected :: toasts s) true
  end.

(** [disconnectGoogleCalendar] *)
Definition disconnectGoogleCalendar (c : component) (st : state) : result :=
  let r := logout st in
  mkResult (mkComponent false (isLoading c) None) (final r) (calls r) None
           [Disconnected] true.

End Component.

(** The user grants access for an hour. *)
Definition granting : token_response := Granted "ya29.fresh" 3600 instant_0.

Definition signed_out : state := mkState false None None.

Definition idle : component := mkComponent false false None.

Definition linked : component := mkComponent true false None.

(** The remote answers with the scenario's entry. *)
Definition answering_env : env (option (list GoogleEvent.t)) :=
  mkEnv _ instant_0 (Settled (Js.Ok tt)) Silent
    (Settled (Js.Ok (HttpOk
       (Js.Ok (Some GoogleCalendarSync.scenario_remote))))).

(** As above, and the consent flow grants a new token. *)
Definition renewing_env : env (option (list GoogleEvent.t)) :=
  mkEnv _ instant_0 (Settled (Js.Ok tt)) granting
    (Settled (Js.Ok (HttpOk
       (Js.Ok (Some GoogleCalendarSync.scenario_remote))))).

Definition backend_error : option error_obj :=
  Some (mkError (Some 500) (Some "INTERNAL") (Some "Backend Error")).

(** The remote answers with an error that is not a 401. *)
Definition failing_env : env (option (list GoogleEvent.t)) :=
  mkEnv _ instant_0 (Settled (Js.Ok tt)) Silent
    (Settled (Js.Ok (HttpError (Js.Ok backend_error)))).

End SyncComponent.

(** ** components/RemindersPanel.tsx: the stored collection *)

Module PanelStorage.
Import RemindersPanel.

(** The load effect: [localStorage.getItem] of the user's entry and, when
    there is one, [setReminders(JSON.parse(...))]. *)
Definition loadReminders (p : panel) : panel :=
  match stored p with
  | Some userReminders => mkPanel userReminders (stored p)
  | None => p
  end.

(** The component mounted anew over the same storage: [useState([])],
    then the load effect. *)
Definition mount (p : panel) : panel :=
  loadReminders (mkPanel [] (stored p)).

(** The stored collection holds the reminders of the panel, in some
    order. *)
Definition in_step (p : panel) : Prop :=
  exists l, stored p = Some l /\ l ≡ₚ reminders p.

End PanelStorage.

(** ** services/googleAuthService.ts: when a calendar call sends its request *)

Module CalendarCalls.
Import Async GoogleAuthService.

(** A calendar call sends its request with the stored token when that
    token needs no refresh. *)
Definition holds_token {A} (e : env A) (st : state) (tok : string) : Prop :=
  needs_refresh (now e) st = false /\ accessToken st = Some tok.

(** A calendar call sends its request with a new token when the stored
    one needs a refresh, the token client is there or can be created, and
    the consent flow grants the token. *)
Definition gets_token {A} (e : env A) (st : state) (tok : string) : Prop :=
  needs_refresh (now e) st = true
  /\ (tokenClient st = true \/ init_result e = Settled (Js.Ok tt))
  /\ exists expires_in at_, token e = Granted tok expires_in at_.

(** The consent flow grants a new token, and the remote rejects the
    request made with it with a 401. *)
Definition regranting_env {A} : env A :=
  mkEnv A instant_0 (Settled (Js.Ok tt))
    (Granted "ya29.fresh" 3600 instant_0)
    (Settled (Js.Ok (HttpError (Js.Ok unauthenticated_body)))).

End CalendarCalls.

(** * Properties *)

(** ** The merge of [syncCalendar] *)

Section SplitFacts.
Import GoogleCalendarSync.
Variable c : ascii.

Lemma split_unfold (s : string) :
  Js.split c s =
  before c s :: (if contains c s then Js.split c (after c s) else []).
Proof.
  induction s as [|a s IH]; simpl; [reflexivity|].
  destruct (Ascii.eqb a c); [reflexivity|].
  rewrite IH. reflexivity.
Qed.

Lemma split_index0 (s : string) : Js.index0 (Js.split c s) = before c s.
Proof. rewrite split_unfold. reflexivity. Qed.

Lemma split_index1 (s : string) :
  Js.split c s !! 1%nat =
  if contains c s then Some (before c (after c s)) else None.
Proof.
  rewrite split_unfold. destruct (contains c s); [|reflexivity].
  rewrite split_unfold. reflexivity.
Qed.
End SplitFacts.

Lemma or_else_empty (o : option string) :
  Js.or_else o EmptyString = match o with Some d => d | None => EmptyString end.
Proof. destruct o as [[|a d]|]; reflexivity. Qed.

Lemma index_substring_clock (dateTime : string) :
  Js.index_substring (Js.split GoogleCalendarSync.T dateTime) 1 5 =
  if GoogleCalendarSync.contains GoogleCalendarSync.T dateTime
  then Js.Ok (GoogleCalendarSync.clock dateTime)
  else Js.Throw Js.TypeError.
Proof.
  unfold Js.index_substring. rewrite split_index1.
  destruct (GoogleCalendarSync.contains _ _); reflexivity.
Qed.

Lemma convert_well_timed (r : GoogleEvent.t) :
  GoogleCalendarSync.well_timed r ->
  GoogleCalendarSync.convert r = Js.Ok (GoogleCalendarSync.spec_map r).
Proof.
  intros [Hs He]. unfold GoogleCalendarSync.convert.
  rewrite !index_substring_clock, Hs, He, split_index0, or_else_empty.
  reflexivity.
Qed.

Lemma convert_ill_timed (r : GoogleEvent.t) :
  ~ GoogleCalendarSync.well_timed r ->
  GoogleCalendarSync.convert r = Js.Throw Js.TypeError.
Proof.
  intros H.
  unfold GoogleCalendarSync.convert, GoogleCalendarSync.well_timed in *.
  rewrite !index_substring_clock.
  destruct (GoogleCalendarSync.contains _ (GoogleEvent.start_dateTime r));
    [|reflexivity].
  destruct (GoogleCalendarSync.contains _ (GoogleEvent.end_dateTime r));
    [|reflexivity].
  exfalso. apply H. split; reflexivity.
Qed.

Lemma convertedEvents_well_timed (R : list GoogleEvent.t) :
  Forall GoogleCalendarSync.well_timed R ->
  GoogleCalendarSync.convertedEvents R =
  Js.Ok (map GoogleCalendarSync.spec_map R).
Proof.
  unfold GoogleCalendarSync.convertedEvents.
  induction 1 as [|r R Hr _ IH]; simpl; [reflexivity|].
  rewrite (convert_well_timed r Hr). simpl. rewrite IH. reflexivity.
Qed.

Lemma not_synced_lacks (e : Event.t) :
  GoogleCalendarSync.not_synced e = true <->
  GoogleCalendarSync.lacks_external_id e.
Proof.
  unfold GoogleCalendarSync.not_synced, GoogleCalendarSync.lacks_external_id.
  destruct (Event.googleEventId e) as [[|a g]|]; simpl; split;
    intros H; try discriminate; auto; destruct H; discriminate.
Qed.

Lemma filter_not_synced (L : list Event.t) :
  List.filter GoogleCalendarSync.not_synced L =
  filter GoogleCalendarSync.lacks_external_id L.
Proof.
  induction L as [|e L IH]; [reflexivity|].
  simpl. rewrite filter_cons, IH.
  destruct (GoogleCalendarSync.not_synced e) eqn:E; case_decide as D;
    try reflexivity.
  - apply not_synced_lacks in E. contradiction.
  - apply not_synced_lacks in D. congruence.
Qed.

(** C1 (amended).  For every local list [L] and every fetched list [R]
    whose [dateTime]s all contain a ['T'], the merge of [syncCalendar]
    yields the events of [L] whose [googleEventId] is absent or empty,
    verbatim and in order, followed by the image of each [r] of [R]:
    id and googleEventId [r.id], title [r.summary], description
    [r.description] or the empty string, date the text before the first
    ['T'] of [r.start.dateTime], start and end time the first five
    characters of the text between the first ['T'] and the next one (or
    the end).  A connected [syncCalendar] hands exactly that list to
    [onEventsUpdate]. *)
Theorem mergedEvents_spec (L : list Event.t) (R : list GoogleEvent.t) :
  Forall GoogleCalendarSync.well_timed R ->
  GoogleCalendarSync.mergedEvents L R =
    Js.Ok (GoogleCalendarSync.spec_merge L R)
  /\ GoogleCalendarSync.syncCalendar true L (Js.Ok R) =
    Some (GoogleCalendarSync.spec_merge L R).
Proof.
  intros HR.
  assert (GoogleCalendarSync.mergedEvents L R =
          Js.Ok (GoogleCalendarSync.spec_merge L R)) as Hm.
  { unfold GoogleCalendarSync.mergedEvents, GoogleCalendarSync.spec_merge.
    rewrite (convertedEvents_well_timed R HR). simpl.
    rewrite filter_not_synced. reflexivity. }
  split; [exact Hm|].
  unfold GoogleCalendarSync.syncCalendar. simpl.
  unfold mbind, result_bind, Js.bind. rewrite Hm. reflexivity.
Qed.

(** The scenario of the specification, as an instance of the theorem. *)
Lemma mergedEvents_spec_scenario :
  Forall GoogleCalendarSync.well_timed GoogleCalendarSync.scenario_remote
  /\ GoogleCalendarSync.mergedEvents GoogleCalendarSync.scenario_local
       GoogleCalendarSync.scenario_remote
     = Js.Ok GoogleCalendarSync.scenario_expected.
Proof.
  assert (Forall GoogleCalendarSync.well_timed
            GoogleCalendarSync.scenario_remote) as H.
  { repeat constructor. }
  split; [exact H|].
  exact (proj1 (mergedEvents_spec GoogleCalendarSync.scenario_local
                  GoogleCalendarSync.scenario_remote H)).
Defined.

(** C1, as stated, fails: on a fetched entry whose [dateTime] has no ['T']
    the conversion throws, no merged collection is produced and
    [onEventsUpdate] is not called. *)
Lemma mergedEvents_date_only_throws :
  GoogleCalendarSync.mergedEvents GoogleCalendarSync.scenario_local
    GoogleCalendarSync.date_only_remote = Js.Throw Js.TypeError
  /\ GoogleCalendarSync.syncCalendar true GoogleCalendarSync.scenario_local
       (Js.Ok GoogleCalendarSync.date_only_remote) = None.
Proof. split; reflexivity. Qed.

(** A local event whose [googleEventId] is the empty string is kept by the
    merge, like one without the property. *)
Example mergedEvents_keeps_empty_external_id :
  GoogleCalendarSync.mergedEvents GoogleCalendarSync.draft_local []
  = Js.Ok GoogleCalendarSync.draft_local.
Proof. reflexivity. Qed.

Lemma elem_of_List_filter {A} (f : A -> bool) (l : list A) (x : A) :
  x ∈ List.filter f l <-> x ∈ l /\ f x = true.
Proof. rewrite !list_elem_of_In. apply filter_In. Qed.

Lemma mergedEvents_unfold (L : list Event.t) (R : list GoogleEvent.t) :
  GoogleCalendarSync.mergedEvents L R =
  match GoogleCalendarSync.convertedEvents R with
  | Js.Ok converted =>
      Js.Ok (List.filter GoogleCalendarSync.not_synced L ++ converted)%list
  | Js.Throw e => Js.Throw e
  end.
Proof.
  unfold GoogleCalendarSync.mergedEvents, mbind, result_bind, Js.bind.
  reflexivity.
Qed.

(** C4.  Merging the outcome of a merge again with the same fetched list
    gives the same set of events; when the conversion of the fetched list
    throws, both the merge and its repetition throw. *)
Theorem mergedEvents_idempotent (L : list Event.t) (R : list GoogleEvent.t) :
  GoogleCalendarSync.same_outcome
    (M ← GoogleCalendarSync.mergedEvents L R;
     GoogleCalendarSync.mergedEvents M R)
    (GoogleCalendarSync.mergedEvents L R).
Proof.
  rewrite (mergedEvents_unfold L R).
  destruct (GoogleCalendarSync.convertedEvents R) as [converted|e] eqn:HR;
    [|exact I].
  cbn [mbind result_bind Js.bind].
  rewrite mergedEvents_unfold, HR. simpl.
  intros e. rewrite !elem_of_app, elem_of_List_filter, !elem_of_app.
  rewrite elem_of_List_filter. tauto.
Qed.

(** As lists the two differ only by repeated images of fetched entries
    whose id is empty: the repetition is the same list when every fetched
    id is non-empty. *)
Lemma converted_synced (R : list GoogleEvent.t) (converted : list Event.t) :
  GoogleCalendarSync.convertedEvents R = Js.Ok converted ->
  map Event.googleEventId converted =
  map (fun r => Some (GoogleEvent.id r)) R.
Proof.
  unfold GoogleCalendarSync.convertedEvents.
  revert converted. induction R as [|r R IH]; intros converted; simpl.
  - intros [= <-]. reflexivity.
  - unfold GoogleCalendarSync.convert, mbind, result_bind, Js.bind.
    destruct (Js.index_substring _ 1 5) as [st|]; [|discriminate].
    destruct (Js.index_substring _ 1 5) as [en|]; [|discriminate].
    destruct (Js.mapM _ R) as [tl|]; [|discriminate].
    intros [= <-]. simpl. f_equal. apply IH. reflexivity.
Qed.

Example mergedEvents_repeats_anonymous :
  (M ← GoogleCalendarSync.mergedEvents [] GoogleCalendarSync.anonymous_remote;
   GoogleCalendarSync.mergedEvents M GoogleCalendarSync.anonymous_remote)
  = Js.Ok (map GoogleCalendarSync.spec_map
             (GoogleCalendarSync.anonymous_remote
              ++ GoogleCalendarSync.anonymous_remote)%list).
Proof. reflexivity. Qed.

Lemma count_external_app (g : string) (M1 M2 : list Event.t) :
  GoogleCalendarSync.count_external g (M1 ++ M2) =
  (GoogleCalendarSync.count_external g M1
   + GoogleCalendarSync.count_external g M2)%nat.
Proof.
  unfold GoogleCalendarSync.count_external.
  rewrite filter_app, length_app. reflexivity.
Qed.

Lemma count_external_ids (g : string) (M : list Event.t) :
  GoogleCalendarSync.count_external g M =
  length (filter (fun o => o = Some g) (map Event.googleEventId M)).
Proof.
  unfold GoogleCalendarSync.count_external.
  induction M as [|e M IH]; [reflexivity|].
  simpl. rewrite !filter_cons. repeat case_decide; simpl; congruence.
Qed.

Lemma count_some_ids (g : string) (ids : list string) :
  length (filter (fun o => o = Some g) (map Some ids)) =
  length (filter (fun i => i = g) ids).
Proof.
  induction ids as [|i ids IH]; [reflexivity|].
  simpl. rewrite !filter_cons. repeat case_decide; simpl; congruence.
Qed.

Lemma count_NoDup (g : string) (ids : list string) :
  NoDup ids ->
  length (filter (fun i => i = g) ids) =
  if decide (g ∈ ids) then 1%nat else 0%nat.
Proof.
  induction 1 as [|i ids Hi Hnd IH]; [reflexivity|].
  rewrite filter_cons. destruct (decide (i = g)) as [->|Hig].
  - simpl. rewrite IH.
    rewrite (decide_True (P := g ∈ g :: ids)) by apply list_elem_of_here.
    rewrite decide_False by exact Hi. reflexivity.
  - rewrite IH. destruct (decide (g ∈ ids)) as [Hin|Hin].
    + rewrite decide_True by (apply list_elem_of_further; exact Hin).
      reflexivity.
    + rewrite decide_False; [reflexivity|].
      intros [->|H]%elem_of_cons; [congruence|contradiction].
Qed.

Lemma count_external_not_synced (g : string) (L : list Event.t) :
  g <> EmptyString ->
  GoogleCalendarSync.count_external g
    (List.filter GoogleCalendarSync.not_synced L) = 0%nat.
Proof.
  intros Hg. unfold GoogleCalendarSync.count_external.
  induction L as [|e L IH]; [reflexivity|].
  simpl. destruct (GoogleCalendarSync.not_synced e) eqn:E; [|exact IH].
  rewrite filter_cons. case_decide as D; cbv beta in D; [|exact IH].
  exfalso. unfold GoogleCalendarSync.not_synced in E. rewrite D in E.
  destruct g; [congruence|discriminate].
Qed.

Lemma convertedEvents_length (R : list GoogleEvent.t)
    (converted : list Event.t) :
  GoogleCalendarSync.convertedEvents R = Js.Ok converted ->
  length converted = length R.
Proof.
  intros H%converted_synced.
  rewrite <- (length_map Event.googleEventId), H, length_map. reflexivity.
Qed.

Lemma converted_images (R : list GoogleEvent.t) (converted : list Event.t) :
  GoogleCalendarSync.convertedEvents R = Js.Ok converted ->
  Forall2 (fun r x => GoogleCalendarSync.convert r = Js.Ok x) R converted.
Proof.
  unfold GoogleCalendarSync.convertedEvents.
  revert converted. induction R as [|r0 R IH]; intros converted Hc.
  - injection Hc as <-. constructor.
  - cbn in Hc. unfold mbind, result_bind, Js.bind in Hc.
    destruct (GoogleCalendarSync.convert r0) as [y0|] eqn:H0;
      [|discriminate].
    destruct (Js.mapM _ R) as [tl|] eqn:Htl; [|discriminate].
    injection Hc as <-. constructor; [exact H0|]. apply IH. reflexivity.
Qed.

(** C7 (amended).  The merge does not deduplicate.  For all local and
    fetched lists, a merge that succeeds is the local events lacking an
    external id, in their order, followed by one entry per element of the
    fetched list, in its order, each the image of that element; so a
    non-empty external id identifies as many merged events as it occurs
    among the ids of the fetched list.  When those ids are pairwise
    distinct, that is exactly one event if it is an id of the fetched
    list and none otherwise. *)
Theorem merged_external_ids (L : list Event.t) (R : list GoogleEvent.t)
    (M : list Event.t) :
  GoogleCalendarSync.mergedEvents L R = Js.Ok M ->
  (exists converted,
      M = (filter GoogleCalendarSync.lacks_external_id L ++ converted)%list
      /\ Forall2 (fun r x => GoogleCalendarSync.convert r = Js.Ok x)
                 R converted)
  /\ (forall l, l ∈ L -> GoogleCalendarSync.lacks_external_id l -> l ∈ M)
  /\ length M =
     (length (filter GoogleCalendarSync.lacks_external_id L) + length R)%nat
  /\ (forall g, g <> EmptyString ->
        GoogleCalendarSync.count_external g M =
        length (filter (fun i => i = g) (map GoogleEvent.id R)))
  /\ (NoDup (map GoogleEvent.id R) ->
      forall g, g <> EmptyString ->
        GoogleCalendarSync.count_external g M =
        if decide (g ∈ map GoogleEvent.id R) then 1%nat else 0%nat).
Proof.
  rewrite mergedEvents_unfold.
  destruct (GoogleCalendarSync.convertedEvents R) as [converted|] eqn:HR;
    [|discriminate].
  intros [= <-].
  assert (forall g, g <> EmptyString ->
            GoogleCalendarSync.count_external g
              (List.filter GoogleCalendarSync.not_synced L ++ converted) =
            length (filter (fun i => i = g) (map GoogleEvent.id R)))
    as Hcount.
  { intros g Hg.
    rewrite count_external_app, (count_external_not_synced g L Hg).
    rewrite count_external_ids, (converted_synced R converted HR).
    rewrite <- (map_map GoogleEvent.id Some), count_some_ids.
    reflexivity. }
  split; [|split; [|split; [|split]]].
  - exists converted. split; [|apply converted_images, HR].
    rewrite filter_not_synced. reflexivity.
  - intros l Hl Hlacks. apply elem_of_app. left.
    rewrite filter_not_synced. apply list_elem_of_filter. auto.
  - rewrite length_app, filter_not_synced,
      (convertedEvents_length R converted HR).
    reflexivity.
  - exact Hcount.
  - intros Hnd g Hg. rewrite (Hcount g Hg). apply count_NoDup, Hnd.
Qed.

Lemma merged_external_ids_scenario :
  GoogleCalendarSync.mergedEvents GoogleCalendarSync.scenario_local
    GoogleCalendarSync.scenario_remote
  = Js.Ok GoogleCalendarSync.scenario_expected
  /\ NoDup (map GoogleEvent.id GoogleCalendarSync.scenario_remote)
  /\ GoogleCalendarSync.count_external "g1"
       GoogleCalendarSync.scenario_expected = 1%nat.
Proof.
  assert (NoDup (map GoogleEvent.id GoogleCalendarSync.scenario_remote))
    as Hnd.
  { apply NoDup_singleton. }
  split; [reflexivity|]. split; [exact Hnd|].
  exact (proj2 (proj2 (proj2 (proj2
           (merged_external_ids GoogleCalendarSync.scenario_local
              GoogleCalendarSync.scenario_remote
              GoogleCalendarSync.scenario_expected eq_refl))))
           Hnd "g1" ltac:(discriminate)).
Defined.

(** C7, as stated, fails: a fetched list that repeats an id yields two
    merged events with that external id. *)
Lemma merged_repeated_remote_ids :
  exists M,
    GoogleCalendarSync.mergedEvents [] GoogleCalendarSync.repeated_remote
    = Js.Ok M
    /\ GoogleCalendarSync.count_external "g1" M = 2%nat.
Proof. eexists. split; reflexivity. Qed.

(** ** The credential and the calendar calls *)

Section AuthFacts.
Import Async GoogleAuthService CalendarCalls.

Lemma refresh_unfold {A} (e : env A) (st : state) :
  refreshTokenIfNeeded e st =
  if needs_refresh (now e) st
  then requestAccess (init_result e) (token e) st
  else Run st [] (Settled (Js.Ok tt)).
Proof.
  unfold refreshTokenIfNeeded, mbind, async_bind, Async.bind, get. simpl.
  destruct (needs_refresh (now e) st); [|reflexivity].
  destruct (requestAccess _ _ st) as [s1 l1 [[[]|err]|]]; reflexivity.
Qed.

(** [requestAccess] makes at most the token request. *)
Lemma requestAccess_calls (loaded : completion unit)
    (answer : token_response) (st : state) :
  fetches (calls (requestAccess loaded answer st)) = [].
Proof.
  unfold requestAccess, requestAccess_start, requestAccess_settle, init,
    mbind, async_bind, Async.bind, get, perform, lift, await, modify, throw,
    mret, async_ret, ret.
  destruct st as [[] tok ex], loaded as [[[]|err]|], answer; reflexivity.
Qed.

Lemma refresh_calls {A} (e : env A) (st : state) :
  fetches (calls (refreshTokenIfNeeded e st)) = [].
Proof.
  rewrite refresh_unfold. destruct (needs_refresh (now e) st);
    [apply requestAccess_calls|reflexivity].
Qed.

(** Name the run of the validity check inside the run [r] of a calendar
    call [f]; [Hc] states that the check fetched nothing. *)
Ltac open_call f r Hr Hc :=
  match type of Hr with
  | r = _ ?e ?st =>
      pose proof (refresh_calls e st) as Hc;
      remember (refreshTokenIfNeeded e st) as c eqn:Hcq;
      unfold f in Hr; unfold mbind at 1 in Hr;
      unfold async_bind, Async.bind in Hr; rewrite <- Hcq in Hr
  end.

Ltac unfold_ops H :=
  unfold bearer_token, reject_response, clear_credential, mbind,
    async_bind, Async.bind, get, perform, lift, await, throw, modify,
    mret, async_ret, ret in H.

Lemma unauthenticated_true (err : error_obj) :
  status err = Some "UNAUTHENTICATED" \/ code err = Some 401 ->
  unauthenticated (Some err) = true.
Proof.
  intros [H|H]; unfold unauthenticated; rewrite H.
  - reflexivity.
  - rewrite (bool_decide_eq_true_2 (Some 401 = Some 401) eq_refl).
    apply orb_true_r.
Qed.

Ltac run_call :=
  unfold getEvents, addEvent, refreshTokenIfNeeded, requestAccess,
    requestAccess_start, requestAccess_settle, init, bearer_token,
    reject_response, clear_credential, mbind, async_bind, Async.bind, get,
    perform, lift, await, modify, throw, mret, async_ret, ret.

(** C5.  A [getEvents] or [addEvent] call whose request is answered with
    a response that is not ok and whose body carries
    [error.status = 'UNAUTHENTICATED'] or [error.code = 401]: the stored
    credential is cleared (access token and expiry), the call fails with
    the error 'authentication expired', and the request is made once and
    is the last call of the run.  This holds with the stored token and
    with a token granted to the call; and a call makes a request in these
    two cases only. *)
Theorem unauthenticated_response_clears (st : state) (err : error_obj)
    (tok : string) :
  status err = Some "UNAUTHENTICATED" \/ code err = Some 401 ->
  Js.truthy tok = true ->
  (forall e : env (option (list GoogleEvent.t)),
     fetched e = Settled (Js.Ok (HttpError (Js.Ok (Some err)))) ->
     (holds_token e st tok ->
        getEvents e st =
        Run (mkState (tokenClient st) None None) [Fetch GET tok]
            (Settled (Js.Throw (Js.Error "authentication expired"))))
     /\ (gets_token e st tok ->
        getEvents e st =
        Run (mkState true None None) [TokenRequest; Fetch GET tok]
            (Settled (Js.Throw (Js.Error "authentication expired")))))
  /\ (forall (event : Event.t) (e : env GoogleEvent.t),
     fetched e = Settled (Js.Ok (HttpError (Js.Ok (Some err)))) ->
     (holds_token e st tok ->
        addEvent event e st =
        Run (mkState (tokenClient st) None None) [Fetch POST tok]
            (Settled (Js.Throw (Js.Error "authentication expired"))))
     /\ (gets_token e st tok ->
        addEvent event e st =
        Run (mkState true None None) [TokenRequest; Fetch POST tok]
            (Settled (Js.Throw (Js.Error "authentication expired")))))
  /\ (forall (e : env (option (list GoogleEvent.t))) m bearer,
        Fetch m bearer ∈ calls (getEvents e st) ->
        m = GET /\ Js.truthy bearer = true
        /\ (holds_token e st bearer \/ gets_token e st bearer))
  /\ (forall (event : Event.t) (e : env GoogleEvent.t) m bearer,
        Fetch m bearer ∈ calls (addEvent event e st) ->
        m = POST /\ Js.truthy bearer = true
        /\ (holds_token e st bearer \/ gets_token e st bearer)).
Proof.
  intros Hu%unauthenticated_true Ht.
  split; [|split; [|split]].
  - intros e He. split.
    + intros [Hn Htok]. run_call. rewrite Hn. cbn -[unauthenticated].
      rewrite Htok, Ht, He. cbn -[unauthenticated]. rewrite Hu. reflexivity.
    + intros (Hn & Hready & expires_in & at_ & Hgrant). run_call.
      rewrite Hn, Hgrant.
      destruct st as [[] tok0 ex]; cbn -[unauthenticated] in *.
      * rewrite Ht, He. cbn -[unauthenticated]. rewrite Hu. reflexivity.
      * destruct Hready as [H | ->]; [discriminate|].
        cbn -[unauthenticated]. rewrite Ht, He. cbn -[unauthenticated].
        rewrite Hu. reflexivity.
  - intros event e He. split.
    + intros [Hn Htok]. run_call. rewrite Hn. cbn -[unauthenticated].
      rewrite Htok, Ht, He. cbn -[unauthenticated]. rewrite Hu. reflexivity.
    + intros (Hn & Hready & expires_in & at_ & Hgrant). run_call.
      rewrite Hn, Hgrant.
      destruct st as [[] tok0 ex]; cbn -[unauthenticated] in *.
      * rewrite Ht, He. cbn -[unauthenticated]. rewrite Hu. reflexivity.
      * destruct Hready as [H | ->]; [discriminate|].
        cbn -[unauthenticated]. rewrite Ht, He. cbn -[unauthenticated].
        rewrite Hu. reflexivity.
  - intros e m bearer. unfold holds_token, gets_token. run_call.
    destruct st as [c tok0 ex].
    destruct (needs_refresh (now e) (mkState c tok0 ex)) eqn:Hn;
      cbn -[unauthenticated].
    + destruct c, (init_result e) as [[[]|err0]|],
        (token e) as [tok1 ex1 at1|err1|]; cbn -[unauthenticated];
        try (intros H; repeat (apply elem_of_cons in H as [H|H]);
             try discriminate; inversion H; fail).
      all: destruct (Js.truthy tok1) eqn:Ht1; cbn -[unauthenticated];
        try (intros H; repeat (apply elem_of_cons in H as [H|H]);
             try discriminate; inversion H; fail).
      all: destruct (fetched e) as [[[[items|]|[error|]]|]|];
        cbn -[unauthenticated]; try destruct (unauthenticated error);
        cbn; intros H; repeat (apply elem_of_cons in H as [H|H]);
        try discriminate; try (inversion H; fail);
        injection H as -> ->; eauto 10.
    + destruct tok0 as [tok1|]; cbn -[unauthenticated];
        try (intros H; inversion H; fail).
      destruct (Js.truthy tok1) eqn:Ht1; cbn -[unauthenticated];
        try (intros H; inversion H; fail).
      destruct (fetched e) as [[[[items|]|[error|]]|]|];
        cbn -[unauthenticated]; try destruct (unauthenticated error);
        cbn; intros H; repeat (apply elem_of_cons in H as [H|H]);
        try discriminate; try (inversion H; fail);
        injection H as -> ->; eauto 10.
  - intros event e m bearer. unfold holds_token, gets_token. run_call.
    destruct st as [c tok0 ex].
    destruct (needs_refresh (now e) (mkState c tok0 ex)) eqn:Hn;
      cbn -[unauthenticated].
    + destruct c, (init_result e) as [[[]|err0]|],
        (token e) as [tok1 ex1 at1|err1|]; cbn -[unauthenticated];
        try (intros H; repeat (apply elem_of_cons in H as [H|H]);
             try discriminate; inversion H; fail).
      all: destruct (Js.truthy tok1) eqn:Ht1; cbn -[unauthenticated];
        try (intros H; repeat (apply elem_of_cons in H as [H|H]);
             try discriminate; inversion H; fail).
      all: destruct (fetched e) as [[[[items|]|[error|]]|]|];
        cbn -[unauthenticated]; try destruct (unauthenticated error);
        cbn; intros H; repeat (apply elem_of_cons in H as [H|H]);
        try discriminate; try (inversion H; fail);
        injection H as -> ->; eauto 10.
    + destruct tok0 as [tok1|]; cbn -[unauthenticated];
        try (intros H; inversion H; fail).
      destruct (Js.truthy tok1) eqn:Ht1; cbn -[unauthenticated];
        try (intros H; inversion H; fail).
      destruct (fetched e) as [[[[items|]|[error|]]|]|];
        cbn -[unauthenticated]; try destruct (unauthenticated error);
        cbn; intros H; repeat (apply elem_of_cons in H as [H|H]);
        try discriminate; try (inversion H; fail);
        injection H as -> ->; eauto 10.
Qed.

Lemma unauthenticated_response_clears_example :
  (status unauthenticated_error = Some "UNAUTHENTICATED"
   \/ code unauthenticated_error = Some 401)
  /\ Js.truthy "ya29.token" = true
  /\ holds_token (@rejecting_env GoogleEvent.t) fresh_state "ya29.token"
  /\ gets_token (@regranting_env (option (list GoogleEvent.t)))
       expiring_state "ya29.fresh"
  /\ getEvents rejecting_env fresh_state
     = Run (mkState true None None) [Fetch GET "ya29.token"]
         (Settled (Js.Throw (Js.Error "authentication expired")))
  /\ addEvent sample_event rejecting_env fresh_state
     = Run (mkState true None None) [Fetch POST "ya29.token"]
         (Settled (Js.Throw (Js.Error "authentication expired")))
  /\ getEvents regranting_env expiring_state
     = Run (mkState true None None) [TokenRequest; Fetch GET "ya29.fresh"]
         (Settled (Js.Throw (Js.Error "authentication expired"))).
Proof.
  assert (status unauthenticated_error = Some "UNAUTHENTICATED"
          \/ code unauthenticated_error = Some 401) as Hu.
  { left. reflexivity. }
  assert (holds_token (@rejecting_env (option (list GoogleEvent.t)))
            fresh_state "ya29.token") as Hget.
  { split; reflexivity. }
  assert (holds_token (@rejecting_env GoogleEvent.t) fresh_state
            "ya29.token") as Hadd.
  { split; reflexivity. }
  assert (gets_token (@regranting_env (option (list GoogleEvent.t)))
            expiring_state "ya29.fresh") as Hnew.
  { split; [reflexivity|]. split; [left; reflexivity|].
    exists 3600, instant_0. reflexivity. }
  split; [exact Hu|]. split; [reflexivity|]. split; [exact Hadd|].
  split; [exact Hnew|]. split; [|split].
  - exact (proj1 (proj1 (unauthenticated_response_clears fresh_state
                           unauthenticated_error "ya29.token" Hu eq_refl)
                    rejecting_env eq_refl) Hget).
  - exact (proj1 (proj1 (proj2
             (unauthenticated_response_clears fresh_state
                unauthenticated_error "ya29.token" Hu eq_refl))
             sample_event rejecting_env eq_refl) Hadd).
  - exact (proj2 (proj1 (unauthenticated_response_clears expiring_state
                           unauthenticated_error "ya29.fresh" Hu eq_refl)
                    regranting_env eq_refl) Hnew).
Defined.

Lemma getEvents_continues (e : env (option (list GoogleEvent.t)))
    (st : state) :
  continues_check (refreshTokenIfNeeded e st) (getEvents e st) GET.
Proof.
  remember (getEvents e st) as r eqn:Hr.
  open_call getEvents r Hr Hc.
  destruct c as [s1 l1 [[[]|e1]|]]; cbn [calls] in Hc.
  - unfold_ops Hr.
    destruct (accessToken s1) as [[|a tok]|] eqn:Htok; cbn in Hr;
      try solve [subst r; split;
                 [exists []; cbn; rewrite app_nil_r; auto
                 |split; [intros ?|]; discriminate]].
    destruct (fetched e) as [[[[items|]|[error|]]|]|]; cbn in Hr;
      try destruct (unauthenticated error); cbn in Hr;
      (subst r; split;
       [ exists [Fetch GET (String a tok)]; cbn;
         split; [reflexivity|]; split; [exact Hc|]; right; eauto
       | split; [intros ?|]; discriminate ]).
  - subst r. split; [exists []; cbn; rewrite app_nil_r; auto|].
    split; [intros ? [= <-]; auto|discriminate].
  - subst r. split; [exists []; cbn; rewrite app_nil_r; auto|].
    split; [discriminate|auto].
Qed.

Lemma addEvent_continues (event : Event.t) (e : env GoogleEvent.t)
    (st : state) :
  continues_check (refreshTokenIfNeeded e st) (addEvent event e st) POST.
Proof.
  remember (addEvent event e st) as r eqn:Hr.
  open_call addEvent r Hr Hc.
  destruct c as [s1 l1 [[[]|e1]|]]; cbn [calls] in Hc.
  - unfold_ops Hr.
    destruct (accessToken s1) as [[|a tok]|] eqn:Htok; cbn in Hr;
      try solve [subst r; split;
                 [exists []; cbn; rewrite app_nil_r; auto
                 |split; [intros ?|]; discriminate]].
    destruct (fetched e) as [[[[created|]|[error|]]|]|]; cbn in Hr;
      try destruct (unauthenticated error); cbn in Hr;
      (subst r; split;
       [ exists [Fetch POST (String a tok)]; cbn;
         split; [reflexivity|]; split; [exact Hc|]; right; eauto
       | split; [intros ?|]; discriminate ]).
  - subst r. split; [exists []; cbn; rewrite app_nil_r; auto|].
    split; [intros ? [= <-]; auto|discriminate].
  - subst r. split; [exists []; cbn; rewrite app_nil_r; auto|].
    split; [discriminate|auto].
Qed.

Lemma needs_refresh_threshold (now : Z) (st : state) :
  (tokenExpiry st = None -> needs_refresh now st = true)
  /\ (forall expiry, tokenExpiry st = Some expiry ->
        expiry - now < 60000 -> needs_refresh now st = true)
  /\ (forall expiry, tokenExpiry st = Some expiry ->
        0 <= now -> 60000 < expiry - now -> needs_refresh now st = false).
Proof.
  unfold needs_refresh. repeat split.
  - intros ->. reflexivity.
  - intros expiry -> H. apply orb_true_iff. right. apply Z.leb_le. lia.
  - intros expiry -> H0 H. apply orb_false_iff. split.
    + apply Z.eqb_neq. lia.
    + apply Z.leb_gt. lia.
Qed.

(** With exactly 60 seconds left the refresh is triggered as well. *)
Example needs_refresh_at_threshold :
  needs_refresh instant_0
    (mkState true (Some "ya29.token") (Some (instant_0 + 60000))) = true.
Proof. reflexivity. Qed.

(** C6 (amended).  [getEvents] and [addEvent] run the validity check
    before anything else: the calls of the check come first, the check
    fetches nothing, and at most one calendar request follows, made only
    after the check has succeeded and with the token it left in place.
    The check invokes [requestAccess] when no expiry is recorded or less
    than 60 seconds remain, and does nothing when more than 60 seconds
    remain.  When the refresh is rejected the request is never issued
    and the caller observes the error of the refresh itself; when the
    consent flow never answers, the call never settles and the request
    is never issued. *)
Theorem validity_check_first (st : state) :
  (forall e : env (option (list GoogleEvent.t)),
     continues_check (refreshTokenIfNeeded e st) (getEvents e st) GET)
  /\ (forall (event : Event.t) (e : env GoogleEvent.t),
     continues_check (refreshTokenIfNeeded e st) (addEvent event e st) POST)
  /\ (forall A (e : env A),
     refreshTokenIfNeeded e st =
     if needs_refresh (now e) st
     then requestAccess (init_result e) (token e) st
     else Run st [] (Settled (Js.Ok tt)))
  /\ (forall now,
     (tokenExpiry st = None -> needs_refresh now st = true)
     /\ (forall expiry, tokenExpiry st = Some expiry ->
           expiry - now < 60000 -> needs_refresh now st = true)
     /\ (forall expiry, tokenExpiry st = Some expiry ->
           0 <= now -> 60000 < expiry - now ->
           needs_refresh now st = false)).
Proof.
  split; [intros e; apply getEvents_continues|].
  split; [intros event e; apply addEvent_continues|].
  split; [intros A e; apply refresh_unfold|].
  intros now. apply needs_refresh_threshold.
Qed.

(** The token expires in 30 seconds and the user declines the refresh:
    the check asks for a token, the list request is never issued, and
    the caller sees the provider's error. *)
Lemma validity_check_first_example :
  tokenExpiry expiring_state = Some (instant_0 + 30000)
  /\ (instant_0 + 30000) - instant_0 < 60000
  /\ needs_refresh instant_0 expiring_state = true
  /\ calls (getEvents declining_env expiring_state) = [TokenRequest]
  /\ outcome (getEvents declining_env expiring_state)
     = Settled (Js.Throw (Js.Error "access_denied"))
  /\ fetches (calls (getEvents declining_env expiring_state)) = [].
Proof.
  destruct (validity_check_first expiring_state)
    as (Hget & _ & _ & Hthr).
  destruct (Hthr instant_0) as (_ & Hbelow & _).
  destruct (Hget declining_env) as (_ & Hrej & _).
  destruct (Hrej (Js.Error "access_denied") eq_refl) as [Hout Hnone].
  split; [reflexivity|]. split; [reflexivity|].
  split; [exact (Hbelow _ eq_refl eq_refl)|].
  split; [reflexivity|]. split; [exact Hout|exact Hnone].
Defined.

(** C6, as stated, fails: after a rejected refresh the caller does not
    observe the 'authentication expired' error but the error of the
    consent flow. *)
Lemma rejected_refresh_is_not_auth_expired :
  needs_refresh (now (@declining_env (option (list GoogleEvent.t))))
    expiring_state = true
  /\ outcome (getEvents declining_env expiring_state)
     = Settled (Js.Throw (Js.Error "access_denied"))
  /\ outcome (getEvents declining_env expiring_state)
     <> Settled (Js.Throw (Js.Error "authentication expired")).
Proof. repeat split. discriminate. Qed.

(** ** Callers that reach the refresh together *)

Lemma refresh_start_requests (loaded : completion unit) (now : Z)
    (st : state) :
  tokenClient st = true -> needs_refresh now st = true ->
  refresh_start loaded now st = Run st [TokenRequest] (Settled (Js.Ok tt)).
Proof.
  intros Hc Hn.
  unfold refresh_start, requestAccess_start, mbind, async_bind, Async.bind,
    get, perform, mret, async_ret, ret.
  cbn. rewrite Hn, Hc. reflexivity.
Qed.

(** C8 (amended).  There is no single-flight guard: when N callers reach
    the refresh path while less than 60 seconds of the token remain and
    before any token response has arrived, each of them issues its own
    token request, N requests in all, and none of them changes the
    stored credential. *)
Theorem callers_request_each (loaded : completion unit) (st : state)
    (expiry : Z) (nows : list Z) :
  tokenClient st = true ->
  tokenExpiry st = Some expiry ->
  Forall (fun now => expiry - now < 60000) nows ->
  calls (callers_arrive loaded nows st)
    = replicate (length nows) TokenRequest
  /\ token_requests (calls (callers_arrive loaded nows st)) = length nows
  /\ final (callers_arrive loaded nows st) = st
  /\ outcome (callers_arrive loaded nows st) = Settled (Js.Ok tt).
Proof.
  intros Hc He Hnows.
  assert (callers_arrive loaded nows st =
          Run st (replicate (length nows) TokenRequest)
              (Settled (Js.Ok tt))) as Hrun.
  { induction Hnows as [|now nows Hnow _ IH]; [reflexivity|].
    cbn [callers_arrive]. unfold mbind, async_bind, Async.bind.
    rewrite refresh_start_requests; [|exact Hc|].
    - rewrite IH. reflexivity.
    - destruct (needs_refresh_threshold now st) as (_ & Hbelow & _).
      exact (Hbelow expiry He Hnow). }
  rewrite Hrun. cbn [calls final outcome].
  split; [reflexivity|]. split; [|split; reflexivity].
  unfold token_requests. clear Hrun.
  induction (length nows) as [|n IH]; [reflexivity|].
  cbn [replicate]. rewrite filter_cons_True by reflexivity.
  cbn [length]. rewrite IH. reflexivity.
Qed.

Lemma callers_request_each_example :
  tokenClient expiring_state = true
  /\ tokenExpiry expiring_state = Some (instant_0 + 30000)
  /\ Forall (fun now => (instant_0 + 30000) - now < 60000)
       [instant_0; instant_0 + 1; instant_0 + 2]
  /\ token_requests
       (calls (callers_arrive (Settled (Js.Ok tt))
                 [instant_0; instant_0 + 1; instant_0 + 2] expiring_state))
     = 3%nat.
Proof.
  assert (Forall (fun now => (instant_0 + 30000) - now < 60000)
            [instant_0; instant_0 + 1; instant_0 + 2]) as Hnows.
  { repeat constructor. }
  split; [reflexivity|]. split; [reflexivity|]. split; [exact Hnows|].
  exact (proj1 (proj2 (callers_request_each (Settled (Js.Ok tt)) expiring_state
                         (instant_0 + 30000)
                         [instant_0; instant_0 + 1; instant_0 + 2]
                         eq_refl eq_refl Hnows))).
Defined.

(** C8, as stated, fails: two callers that find the token within the
    threshold issue two token requests. *)
Lemma two_callers_two_requests :
  needs_refresh instant_0 expiring_state = true
  /\ needs_refresh (instant_0 + 1) expiring_state = true
  /\ token_requests
       (calls (callers_arrive (Settled (Js.Ok tt)) [instant_0; instant_0 + 1]
                 expiring_state)) = 2%nat.
Proof. repeat split. Qed.
End AuthFacts.

(** ** The reminder scheduler and the dispatcher *)

Section ProviderFacts.
Import Async NotificationService.

Lemma email_configured_guard (cfg : config) :
  negb (Js.truthy (EMAILJS_SERVICE_ID cfg))
  || negb (Js.truthy (EMAILJS_TEMPLATE_ID cfg))
  || negb (Js.truthy (EMAILJS_PUBLIC_KEY cfg))
  = negb (email_configured cfg).
Proof.
  unfold email_configured.
  destruct (Js.truthy _), (Js.truthy _), (Js.truthy _); reflexivity.
Qed.

Lemma sms_configured_guard (cfg : config) :
  negb (Js.truthy (TWILIO_ACCOUNT_SID cfg))
  || negb (Js.truthy (TWILIO_AUTH_TOKEN cfg))
  || negb (Js.truthy (TWILIO_FROM_NUMBER cfg))
  = negb (sms_configured cfg).
Proof.
  unfold sms_configured.
  destruct (Js.truthy _), (Js.truthy _), (Js.truthy _); reflexivity.
Qed.

Lemma sendEmail_run (cfg : config) (w : world) (reminder : Reminder.t)
    (userEmail : string) (name : option string) :
  sendEmailNotification cfg w reminder userEmail name tt =
  if email_configured cfg
  then Run tt [EmailjsSend]
         match emailjs_send w with
         | Settled (Js.Ok _) => Settled (Js.Ok true)
         | Settled (Js.Throw _) => Settled (Js.Ok false)
         | Pending => Pending
         end
  else Run tt [] (Settled (Js.Ok false)).
Proof.
  unfold sendEmailNotification. rewrite email_configured_guard.
  destruct (email_configured cfg); cbn [negb]; [|reflexivity].
  unfold try_catch, mbind, async_bind, Async.bind, perform, await, mret,
    async_ret, ret.
  destruct (emailjs_send w) as [[[]|err]|]; reflexivity.
Qed.

Lemma sendSMS_run (cfg : config) (w : world) (reminder : Reminder.t)
    (phoneNumber : string) :
  sendSMSNotification cfg w reminder phoneNumber tt =
  if sms_configured cfg
  then match btoa w with
       | Js.Throw _ => Run tt [] (Settled (Js.Ok false))
       | Js.Ok _ =>
           Run tt [TwilioFetch]
             match twilio_fetch w with
             | Settled (Js.Ok response) =>
                 match json response with
                 | Settled (Js.Ok _) => Settled (Js.Ok (ok response))
                 | Settled (Js.Throw _) => Settled (Js.Ok false)
                 | Pending => Pending
                 end
             | Settled (Js.Throw _) => Settled (Js.Ok false)
             | Pending => Pending
             end
       end
  else Run tt [] (Settled (Js.Ok false)).
Proof.
  unfold sendSMSNotification. rewrite sms_configured_guard.
  destruct (sms_configured cfg); cbn [negb]; [|reflexivity].
  unfold try_catch, mbind, async_bind, Async.bind, perform, await, lift,
    throw, mret, async_ret, ret.
  destruct (btoa w) as [[]|e0]; cbn; [|reflexivity].
  destruct (twilio_fetch w) as [[[k j]|e1]|]; cbn; try reflexivity.
  destruct j as [[text|e2]|]; cbn; try reflexivity.
  destruct k; reflexivity.
Qed.
End ProviderFacts.

Section PanelFacts.
Import Async NotificationService RemindersPanel.
Variable parseISO : string -> option Z.
Variable cfg : config.
Variable userEmail : string.

Abbreviation checkReminder := (checkReminder parseISO cfg userEmail).
Abbreviation checkReminders := (checkReminders parseISO cfg userEmail).
Abbreviation runs := (runs parseISO cfg userEmail).
Abbreviation sendNotification := (sendNotification cfg userEmail).
Abbreviation isAfter_due := (isAfter_due parseISO).
Abbreviation fires := (fires parseISO).

Lemma checkReminder_fires (w : Reminder.t -> world) (now : Z)
    (r : Reminder.t) :
  checkReminder w now r =
  if fires now r
  then (Reminder.with_notificationSent true r,
        Some (r, sendNotification (w r) r tt))
  else (r, None).
Proof.
  unfold RemindersPanel.checkReminder, RemindersPanel.fires.
  destruct (Reminder.notificationSent r), (Reminder.isComplete r),
    (isAfter_due now r); reflexivity.
Qed.

Lemma fires_unsent (now : Z) (r : Reminder.t) :
  fires now r = true ->
  Reminder.notificationSent r = false /\ Reminder.isComplete r = false
  /\ isAfter_due now r = true.
Proof.
  unfold RemindersPanel.fires.
  destruct (Reminder.notificationSent r), (Reminder.isComplete r),
    (isAfter_due now r); intros; try discriminate; auto.
Qed.

Lemma flag_changed_fires (w : Reminder.t -> world) (now : Z)
    (rs : list Reminder.t) :
  flag_changed (map fst (map (checkReminder w now) rs)) rs =
  existsb (fires now) rs.
Proof.
  unfold flag_changed. induction rs as [|r rs IH]; [reflexivity|].
  cbn [map zip zip_with existsb].
  fold (zip (map fst (map (checkReminder w now) rs)) rs).
  rewrite IH. f_equal.
  rewrite checkReminder_fires. destruct (fires now r) eqn:F; cbn.
  - apply fires_unsent in F as (-> & _). reflexivity.
  - destruct (Reminder.notificationSent r); reflexivity.
Qed.

Lemma quiet_pass_unchanged (w : Reminder.t -> world) (now : Z)
    (rs : list Reminder.t) :
  existsb (fires now) rs = false ->
  map fst (map (checkReminder w now) rs) = rs.
Proof.
  induction rs as [|r rs IH]; [reflexivity|].
  cbn [existsb map]. intros [F Hrs]%orb_false_iff.
  rewrite checkReminder_fires, F, (IH Hrs). reflexivity.
Qed.

(** Whether or not the pass writes, the panel holds the mapped list. *)
Lemma next_reminders (w : Reminder.t -> world) (now : Z) (p : panel) :
  reminders (next (checkReminders w now p)) =
  map (fun r => fst (checkReminder w now r)) (reminders p).
Proof.
  unfold RemindersPanel.checkReminders.
  rewrite flag_changed_fires, <- (map_map (checkReminder w now) fst).
  destruct (existsb (fires now) (reminders p)) eqn:E; cbn; [reflexivity|].
  symmetry. apply quiet_pass_unchanged, E.
Qed.

Lemma next_lookup (w : Reminder.t -> world) (now : Z) (p : panel)
    (i : nat) :
  reminders (next (checkReminders w now p)) !! i =
  (fun r => fst (checkReminder w now r)) <$> reminders p !! i.
Proof. rewrite next_reminders. apply list_lookup_fmap. Qed.

Lemma dispatched_unfold (w : Reminder.t -> world) (now : Z) (p : panel) :
  dispatched (checkReminders w now p) =
  omap (fun r => snd (checkReminder w now r)) (reminders p).
Proof.
  unfold RemindersPanel.checkReminders.
  assert (forall rs, omap snd (map (checkReminder w now) rs) =
                     omap (fun r => snd (checkReminder w now r)) rs) as H.
  { induction rs as [|r rs IH]; [reflexivity|].
    cbn [map omap list_omap]. rewrite <- IH. reflexivity. }
  destruct (flag_changed _ _); cbn; apply H.
Qed.

Lemma elem_of_dispatched (w : Reminder.t -> world) (now : Z) (p : panel)
    (d : dispatch) :
  d ∈ dispatched (checkReminders w now p) <->
  exists r, r ∈ reminders p /\ fires now r = true
            /\ d = (r, sendNotification (w r) r tt).
Proof.
  rewrite dispatched_unfold, list_elem_of_omap. split.
  - intros (r & Hr & Hd). exists r. rewrite checkReminder_fires in Hd.
    destruct (fires now r); [|discriminate].
    cbn in Hd. injection Hd as <-. auto.
  - intros (r & Hr & F & ->). exists r. split; [exact Hr|].
    rewrite checkReminder_fires, F. reflexivity.
Qed.

Lemma checkReminders_unfold (w : Reminder.t -> world) (now : Z)
    (p : panel) :
  let updated := map (fun r => fst (checkReminder w now r)) (reminders p) in
  let sends := omap (fun r => snd (checkReminder w now r)) (reminders p) in
  checkReminders w now p =
  if existsb (fires now) (reminders p)
  then mkPass (saveReminders updated p) sends (Some updated)
  else mkPass p sends None.
Proof.
  cbv zeta. rewrite <- dispatched_unfold.
  unfold RemindersPanel.checkReminders.
  rewrite flag_changed_fires, (map_map (checkReminder w now) fst).
  destruct (existsb (fires now) (reminders p)); reflexivity.
Qed.

(** Some flag differs between the list before and after the pass
    exactly when some reminder fires. *)
Lemma flag_differs_fires (w : Reminder.t -> world) (now : Z) (p : panel) :
  (exists i x x',
      reminders p !! i = Some x
      /\ reminders (next (checkReminders w now p)) !! i = Some x'
      /\ Reminder.notificationSent x' <> Reminder.notificationSent x)
  <-> existsb (fires now) (reminders p) = true.
Proof.
  split.
  - intros (i & x & x' & Hx & Hx' & Hne).
    rewrite next_lookup, Hx in Hx'. cbn in Hx'. injection Hx' as <-.
    rewrite checkReminder_fires in Hne.
    apply existsb_exists. exists x. split.
    + apply list_elem_of_In. eapply list_elem_of_lookup_2, Hx.
    + destruct (fires now x); [reflexivity|]. cbn in Hne. congruence.
  - intros (x & Hin%list_elem_of_In & F)%existsb_exists.
    apply list_elem_of_lookup_1 in Hin as [i Hx].
    exists i, x, (Reminder.with_notificationSent true x).
    split; [exact Hx|]. split.
    + rewrite next_lookup, Hx. cbn. rewrite checkReminder_fires, F.
      reflexivity.
    + apply fires_unsent in F as (-> & _). discriminate.
Qed.

(** C10.  A due-check pass leaves every reminder that is complete,
    already notified, or not after its instant unchanged in all fields,
    and writes the collection to the local store if and only if the
    [notificationSent] flag of some reminder changed during the pass:
    then the written value is the updated collection; otherwise nothing
    is written and the panel is untouched. *)
Theorem pass_frame (w : Reminder.t -> world) (now : Z) (p : panel) :
  (forall i x,
      reminders p !! i = Some x ->
      Reminder.isComplete x = true \/ Reminder.notificationSent x = true
      \/ isAfter_due now x = false ->
      reminders (next (checkReminders w now p)) !! i = Some x)
  /\ ((exists i x x',
         reminders p !! i = Some x
         /\ reminders (next (checkReminders w now p)) !! i = Some x'
         /\ Reminder.notificationSent x' <> Reminder.notificationSent x) ->
      written (checkReminders w now p)
        = Some (reminders (next (checkReminders w now p)))
      /\ stored (next (checkReminders w now p))
        = Some (reminders (next (checkReminders w now p))))
  /\ (~ (exists i x x',
         reminders p !! i = Some x
         /\ reminders (next (checkReminders w now p)) !! i = Some x'
         /\ Reminder.notificationSent x' <> Reminder.notificationSent x) ->
      written (checkReminders w now p) = None
      /\ next (checkReminders w now p) = p).
Proof.
  split; [|split].
  - intros i x Hx Hskip. rewrite next_lookup, Hx. cbn.
    rewrite checkReminder_fires.
    replace (fires now x) with false; [reflexivity|].
    unfold RemindersPanel.fires.
    destruct Hskip as [-> | [-> | ->]];
      rewrite ?andb_false_r; auto;
      destruct (Reminder.notificationSent x); reflexivity.
  - intros H%flag_differs_fires.
    rewrite checkReminders_unfold, H. cbn. auto.
  - intros H. rewrite flag_differs_fires in H.
    apply not_true_is_false in H.
    rewrite checkReminders_unfold, H. cbn. auto.
Qed.

(** *** Across passes *)





Lemma dispatched_unsent (w : Reminder.t -> world) (now : Z) (p : panel)
    (d : dispatch) :
  d ∈ dispatched (checkReminders w now p) ->
  fst d ∈ reminders p /\ Reminder.notificationSent (fst d) = false.
Proof.
  intros (r & Hr & F & ->)%elem_of_dispatched. cbn.
  split; [exact Hr|]. apply fires_unsent in F. tauto.
Qed.

Lemma runs_dispatch_unsent (p q : panel) (log : list dispatch)
    (d : dispatch) :
  runs p log q -> d ∈ log -> Reminder.notificationSent (fst d) = false.
Proof.
  intros Hrun.
  induction Hrun as [p|p sorted log q Hperm _ IH|p w now log q _ IH].
  - intros H. inversion H.
  - exact IH.
  - intros [H|H]%elem_of_app.
    + apply dispatched_unsent in H. tauto.
    + apply IH, H.
Qed.



(** *** The dispatch *)


















End PanelFacts.

(** The spec's dispatch scenario: three channels, the email provider
    fails, the local and the SMS channel go through. *)
Example dispatch_with_failing_email :
  Async.calls
    (RemindersPanel.sendNotification NotificationService.all_configured
       RemindersPanel.user NotificationService.email_failing_world
       RemindersPanel.standup tt)
  = [ NotificationService.Enter NotificationService.Local;
      NotificationService.NewNotification;
      NotificationService.Enter NotificationService.Email;
      NotificationService.EmailjsSend;
      NotificationService.Enter NotificationService.SMS;
      NotificationService.TwilioFetch;
      NotificationService.Toast ]
  /\ Async.outcome
       (RemindersPanel.sendNotification NotificationService.all_configured
          RemindersPanel.user NotificationService.email_failing_world
          RemindersPanel.standup tt)
     = Async.Settled (Js.Ok tt).
Proof. split; reflexivity. Qed.

(** The channels run one after the other: while the email provider has
    not answered, the SMS channel is not entered. *)
Example dispatch_waits_for_email :
  Async.calls
    (RemindersPanel.sendNotification NotificationService.all_configured
       RemindersPanel.user NotificationService.email_hanging_world
       RemindersPanel.standup tt)
  = [ NotificationService.Enter NotificationService.Local;
      NotificationService.NewNotification;
      NotificationService.Enter NotificationService.Email;
      NotificationService.EmailjsSend ]
  /\ Async.outcome
       (RemindersPanel.sendNotification NotificationService.all_configured
          RemindersPanel.user NotificationService.email_hanging_world
          RemindersPanel.standup tt)
     = Async.Pending.
Proof. split; reflexivity. Qed.


(** C3, as stated, fails for a channel that fails by not answering: while
    the email provider has not answered, the SMS provider is not called
    and the toast is not shown, although SMS is requested and configured.
    The reminder is marked all the same. *)
Lemma hanging_email_blocks_sms :
  Reminder.smsNotification RemindersPanel.standup = true
  /\ Js.truthy_opt (Reminder.phoneNumber RemindersPanel.standup) = true
  /\ NotificationService.sms_configured NotificationService.all_configured
     = true
  /\ NotificationService.emailjs_send
       NotificationService.email_hanging_world = Async.Pending
  /\ NotificationService.Enter NotificationService.SMS
     ∉ Async.calls
         (RemindersPanel.sendNotification NotificationService.all_configured
            RemindersPanel.user NotificationService.email_hanging_world
            RemindersPanel.standup tt)
  /\ NotificationService.TwilioFetch
     ∉ Async.calls
         (RemindersPanel.sendNotification NotificationService.all_configured
            RemindersPanel.user NotificationService.email_hanging_world
            RemindersPanel.standup tt)
  /\ NotificationService.Toast
     ∉ Async.calls
         (RemindersPanel.sendNotification NotificationService.all_configured
            RemindersPanel.user NotificationService.email_hanging_world
            RemindersPanel.standup tt)
  /\ fst (RemindersPanel.checkReminder RemindersPanel.sample_parseISO
            NotificationService.all_configured RemindersPanel.user
            (fun _ => NotificationService.email_hanging_world)
            (RemindersPanel.nine_o_clock + 1) RemindersPanel.standup)
     = RemindersPanel.notified_standup.
Proof.
  repeat (split; [reflexivity|]).
  assert (Async.calls
            (RemindersPanel.sendNotification
               NotificationService.all_configured RemindersPanel.user
               NotificationService.email_hanging_world
               RemindersPanel.standup tt)
          = [ NotificationService.Enter NotificationService.Local;
              NotificationService.NewNotification;
              NotificationService.Enter NotificationService.Email;
              NotificationService.EmailjsSend ]) as -> by reflexivity.
  repeat split; try reflexivity;
    intros H; repeat (apply elem_of_cons in H as [H|H]; [discriminate|]);
    inversion H.
Qed.


(** Two passes after the instant: one dispatch in all, and the panel holds
    the notified reminder. *)
Example standup_runs :
  exists log,
    RemindersPanel.runs RemindersPanel.sample_parseISO
      NotificationService.all_configured RemindersPanel.user
      RemindersPanel.standup_panel log RemindersPanel.notified_panel
    /\ map fst log = [RemindersPanel.standup].
Proof.
  eexists. split.
  - eapply (RemindersPanel.runs_pass _ _ _ RemindersPanel.standup_panel
              (fun _ => NotificationService.email_failing_world)
              (RemindersPanel.nine_o_clock + 1)).
    eapply (RemindersPanel.runs_pass _ _ _ _
              (fun _ => NotificationService.email_failing_world)
              (RemindersPanel.nine_o_clock + 60001)).
    apply RemindersPanel.runs_done.
  - reflexivity.
Qed.


Lemma pass_frame_example :
  RemindersPanel.reminders RemindersPanel.notified_panel !! 0%nat
    = Some RemindersPanel.notified_standup
  /\ Reminder.notificationSent RemindersPanel.notified_standup = true
  /\ RemindersPanel.reminders
       (RemindersPanel.next
          (RemindersPanel.checkReminders RemindersPanel.sample_parseISO
             NotificationService.all_configured RemindersPanel.user
             (fun _ => NotificationService.email_failing_world)
             (RemindersPanel.nine_o_clock + 1)
             RemindersPanel.notified_panel)) !! 0%nat
     = Some RemindersPanel.notified_standup.
Proof.
  split; [reflexivity|]. split; [reflexivity|].
  exact (proj1 (pass_frame RemindersPanel.sample_parseISO
                  NotificationService.all_configured RemindersPanel.user
                  (fun _ => NotificationService.email_failing_world)
                  (RemindersPanel.nine_o_clock + 1)
                  RemindersPanel.notified_panel)
           0%nat RemindersPanel.notified_standup eq_refl
           (or_intror (or_introl eq_refl))).
Defined.

(** ** Editing a reminder *)

(** [handleUpdateReminder] stores its argument as it is; the flag of the
    stored reminder is the one the caller supplies. *)
Lemma handleUpdateReminder_stores (u : Reminder.t) (p : RemindersPanel.panel)
    (x : Reminder.t) :
  x ∈ RemindersPanel.reminders (RemindersPanel.handleUpdateReminder u p) ->
  Reminder.id x = Reminder.id u -> x = u.
Proof.
  unfold RemindersPanel.handleUpdateReminder. cbn.
  intros (y & -> & Hy)%list_elem_of_fmap.
  case_decide as Hid; [reflexivity|]. intros E. contradiction.
Qed.

(** C9.  Submitting the edit form opened on a stored reminder replaces
    every stored reminder with its id by one that carries the date and the
    time of the form and [notificationSent = false]; the collection is
    written back, and the stored reminder fires again in the first
    due-check pass after its new instant. *)
Theorem edit_resets_notification (trim : string -> string)
    (f : ReminderModal.form) (r : Reminder.t) (freshId : string)
    (p : RemindersPanel.panel) :
  r ∈ RemindersPanel.reminders p ->
  Js.truthy (trim (ReminderModal.title f)) = true ->
  Js.truthy (ReminderModal.date f) = true ->
  Js.truthy (ReminderModal.time f) = true ->
  let p' := RemindersPanel.submitModal trim f (Some r) freshId p in
  (exists x, x ∈ RemindersPanel.reminders p'
             /\ Reminder.id x = Reminder.id r)
  /\ (forall x, x ∈ RemindersPanel.reminders p' ->
        Reminder.id x = Reminder.id r ->
        Reminder.notificationSent x = false
        /\ Reminder.date x = ReminderModal.date f
        /\ Reminder.time x = ReminderModal.time f
        /\ forall parseISO now,
             RemindersPanel.isAfter_due parseISO now x = true ->
             RemindersPanel.fires parseISO now x = true)
  /\ RemindersPanel.stored p' = Some (RemindersPanel.reminders p').
Proof.
  intros Hr Ht Hd Htm. cbv zeta.
  unfold RemindersPanel.submitModal, ReminderModal.handleSubmit.
  rewrite Ht, Hd, Htm. cbn [negb orb].
  split; [|split].
  - exists (ReminderModal.reminderData trim f (Reminder.id r)).
    split; [|reflexivity].
    unfold RemindersPanel.handleUpdateReminder. cbn.
    apply list_elem_of_fmap. exists r. split; [|exact Hr].
    rewrite decide_True; reflexivity.
  - intros x Hx Hid.
    assert (x = ReminderModal.reminderData trim f (Reminder.id r)) as ->.
    { apply (handleUpdateReminder_stores _ p x Hx). exact Hid. }
    cbn. repeat split.
    intros parseISO now Hdue. unfold RemindersPanel.fires.
    rewrite Hdue. reflexivity.
  - reflexivity.
Qed.

Lemma edit_resets_notification_example :
  RemindersPanel.notified_standup
    ∈ RemindersPanel.reminders RemindersPanel.notified_panel
  /\ Reminder.notificationSent RemindersPanel.notified_standup = true
  /\ Js.truthy (ReminderModal.title RemindersPanel.rescheduling) = true
  /\ Js.truthy (ReminderModal.date RemindersPanel.rescheduling) = true
  /\ Js.truthy (ReminderModal.time RemindersPanel.rescheduling) = true
  /\ RemindersPanel.reminders
       (RemindersPanel.submitModal (fun s => s) RemindersPanel.rescheduling
          (Some RemindersPanel.notified_standup) "fresh"
          RemindersPanel.notified_panel)
     = [RemindersPanel.rescheduled_standup]
  /\ Reminder.notificationSent RemindersPanel.rescheduled_standup = false
  /\ Reminder.date RemindersPanel.rescheduled_standup = "2024-01-11"
  /\ Reminder.time RemindersPanel.rescheduled_standup = "10:30".
Proof.
  assert (RemindersPanel.notified_standup
            ∈ RemindersPanel.reminders RemindersPanel.notified_panel) as Hin.
  { apply list_elem_of_here. }
  split; [exact Hin|]. repeat (split; [reflexivity|]).
  destruct (edit_resets_notification (fun s => s)
              RemindersPanel.rescheduling RemindersPanel.notified_standup
              "fresh" RemindersPanel.notified_panel Hin
              eq_refl eq_refl eq_refl) as (_ & Hall & _).
  destruct (Hall RemindersPanel.rescheduled_standup
              (list_elem_of_here _ _) eq_refl) as (Hs & Hd & Ht & _).
  auto.
Defined.

(** The same update with an argument that keeps the flag set stores the
    flag set: the reset is the work of the form, not of
    [handleUpdateReminder]. *)
Example handleUpdateReminder_keeps_flag :
  RemindersPanel.reminders
    (RemindersPanel.handleUpdateReminder RemindersPanel.notified_standup
       RemindersPanel.standup_panel)
  = [RemindersPanel.notified_standup].
Proof. reflexivity. Qed.

(** ** The event form and the calendar page *)

Lemma digit_compare (a b : nat) :
  (a < 10)%nat -> (b < 10)%nat ->
  Ascii.compare (EventModal.digit a) (EventModal.digit b) = Nat.compare a b.
Proof.
  intros Ha Hb.
  do 10 (destruct a as [|a];
         [do 10 (destruct b as [|b]; [vm_compute; reflexivity|]); lia|]).
  lia.
Qed.

Lemma hhmm_compare (h1 m1 h2 m2 : nat) :
  (h1 < 100)%nat -> (m1 < 60)%nat -> (h2 < 100)%nat -> (m2 < 60)%nat ->
  String.compare (EventModal.hhmm h1 m1) (EventModal.hhmm h2 m2) =
  Nat.compare (60 * h1 + m1) (60 * h2 + m2).
Proof.
  intros H1 M1 H2 M2.
  pose proof (Nat.div_mod_eq h1 10) as E1.
  pose proof (Nat.div_mod_eq h2 10) as E2.
  pose proof (Nat.div_mod_eq m1 10) as E3.
  pose proof (Nat.div_mod_eq m2 10) as E4.
  pose proof (Nat.mod_upper_bound h1 10 ltac:(lia)) as B1.
  pose proof (Nat.mod_upper_bound h2 10 ltac:(lia)) as B2.
  pose proof (Nat.mod_upper_bound m1 10 ltac:(lia)) as B3.
  pose proof (Nat.mod_upper_bound m2 10 ltac:(lia)) as B4.
  assert (h1 / 10 < 10)%nat as D1 by (apply Nat.Div0.div_lt_upper_bound; lia).
  assert (h2 / 10 < 10)%nat as D2 by (apply Nat.Div0.div_lt_upper_bound; lia).
  assert (m1 / 10 < 10)%nat as D3 by (apply Nat.Div0.div_lt_upper_bound; lia).
  assert (m2 / 10 < 10)%nat as D4 by (apply Nat.Div0.div_lt_upper_bound; lia).
  unfold EventModal.hhmm. cbn [String.compare].
  rewrite !digit_compare by assumption.
  change (Ascii.compare ":" ":") with Eq.
  symmetry.
  destruct (Nat.compare_spec (h1 / 10) (h2 / 10));
    [|apply Nat.compare_lt_iff; lia|apply Nat.compare_gt_iff; lia].
  destruct (Nat.compare_spec (h1 mod 10) (h2 mod 10));
    [|apply Nat.compare_lt_iff; lia|apply Nat.compare_gt_iff; lia].
  destruct (Nat.compare_spec (m1 / 10) (m2 / 10));
    [|apply Nat.compare_lt_iff; lia|apply Nat.compare_gt_iff; lia].
  destruct (Nat.compare_spec (m1 mod 10) (m2 mod 10));
    [apply Nat.compare_eq_iff; lia
    |apply Nat.compare_lt_iff; lia|apply Nat.compare_gt_iff; lia].
Qed.

(** X1.  For a form with a title and a date whose times are written
    HH:MM, the event form refuses with "Invalid Time" exactly when the end
    is not later than the start on the clock, and otherwise hands the
    event of the form to [onSave]. *)
Theorem handleSubmit_clock (trim : string -> string) (f : EventModal.form)
    (editing : option Event.t) (h1 m1 h2 m2 : nat) :
  Js.truthy (trim (EventModal.title f)) = true ->
  Js.truthy (EventModal.date f) = true ->
  EventModal.startTime f = EventModal.hhmm h1 m1 ->
  EventModal.endTime f = EventModal.hhmm h2 m2 ->
  (h1 < 100)%nat -> (m1 < 60)%nat -> (h2 < 100)%nat -> (m2 < 60)%nat ->
  ((60 * h2 + m2 <= 60 * h1 + m1)%nat ->
     EventModal.handleSubmit trim f editing = EventModal.InvalidTime)
  /\ ((60 * h1 + m1 < 60 * h2 + m2)%nat ->
     EventModal.handleSubmit trim f editing =
     match editing with
     | Some e => EventModal.Edited (EventModal.eventData trim f (Event.id e))
     | None => EventModal.Created (EventModal.eventData trim f)
     end).
Proof.
  intros Ht Hd Hs He H1 M1 H2 M2.
  unfold EventModal.handleSubmit. rewrite Ht, Hd, Hs, He.
  change (Js.truthy (EventModal.hhmm h1 m1)) with true.
  change (Js.truthy (EventModal.hhmm h2 m2)) with true.
  cbn [negb orb]. unfold String.leb.
  rewrite (hhmm_compare h2 m2 h1 m1) by assumption.
  split; intros Hle.
  - destruct (Nat.compare_spec (60 * h2 + m2) (60 * h1 + m1));
      try reflexivity; lia.
  - destruct (Nat.compare_spec (60 * h2 + m2) (60 * h1 + m1));
      try reflexivity; lia.
Qed.

Lemma handleSubmit_clock_example :
  Js.truthy (EventModal.title CalendarPage.moved_planning) = true
  /\ EventModal.startTime CalendarPage.moved_planning = EventModal.hhmm 14 0
  /\ EventModal.endTime CalendarPage.moved_planning = EventModal.hhmm 15 0
  /\ EventModal.handleSubmit (fun s => s) CalendarPage.moved_planning None
     = EventModal.Created
         (EventModal.eventData (fun s => s) CalendarPage.moved_planning).
Proof.
  split; [reflexivity|]. split; [reflexivity|]. split; [reflexivity|].
  apply (proj2 (handleSubmit_clock (fun s => s) CalendarPage.moved_planning
                  None 14 0 15 0 eq_refl eq_refl eq_refl eq_refl
                  ltac:(lia) ltac:(lia) ltac:(lia) ltac:(lia))).
  lia.
Defined.

Lemma converted_member (R : list GoogleEvent.t) (converted : list Event.t)
    (r : GoogleEvent.t) :
  GoogleCalendarSync.convertedEvents R = Js.Ok converted -> r ∈ R ->
  exists y, y ∈ converted /\ Event.id y = GoogleEvent.id r
            /\ Event.googleEventId y = Some (GoogleEvent.id r).
Proof.
  unfold GoogleCalendarSync.convertedEvents.
  revert converted. induction R as [|r0 R IH]; intros converted Hc Hr.
  - inversion Hr.
  - cbn in Hc. unfold mbind, result_bind, Js.bind in Hc.
    destruct (GoogleCalendarSync.convert r0) as [y0|] eqn:H0;
      [|discriminate].
    destruct (Js.mapM _ R) as [tl|] eqn:Htl; [|discriminate].
    injection Hc as <-.
    apply elem_of_cons in Hr as [->|Hr].
    + exists y0. split; [apply list_elem_of_here|].
      unfold GoogleCalendarSync.convert, mbind, result_bind, Js.bind in H0.
      destruct (Js.index_substring _ 1 5); [|discriminate].
      destruct (Js.index_substring _ 1 5); [|discriminate].
      injection H0 as <-. auto.
    + destruct (IH tl eq_refl Hr) as (y & Hy & Hid).
      exists y. split; [apply list_elem_of_further, Hy|exact Hid].
Qed.

(** X2.  Saving the event form on an event of a signed-in page stores, for
    every event with the edited id, an event without [googleEventId]: an
    edited synced event is no longer linked to its remote entry.  The next
    merge therefore keeps the edited event and, for a fetched entry with
    the same id, adds its image as a second event with that id. *)
Theorem edit_unlinks_event (trim : string -> string) (f : EventModal.form)
    (e : Event.t) (freshId email : string) (p : CalendarPage.page) :
  CalendarPage.user p = Some email ->
  e ∈ CalendarPage.events p ->
  EventModal.handleSubmit trim f (Some e)
    = EventModal.Edited (EventModal.eventData trim f (Event.id e)) ->
  let edited := EventModal.eventData trim f (Event.id e) in
  let p' := CalendarPage.submitModal trim f (Some e) freshId p in
  edited ∈ CalendarPage.events p'
  /\ (forall x, x ∈ CalendarPage.events p' ->
        Event.id x = Event.id e -> x = edited)
  /\ Event.googleEventId edited = None
  /\ forall R M r,
       GoogleCalendarSync.mergedEvents (CalendarPage.events p') R = Js.Ok M ->
       r ∈ R -> GoogleEvent.id r = Event.id e ->
       edited ∈ M
       /\ exists y, y ∈ M /\ y <> edited /\ Event.id y = Event.id e
                    /\ Event.googleEventId y = Some (Event.id e).
Proof.
  intros Hu He Hs. cbv zeta.
  unfold CalendarPage.submitModal. rewrite Hs.
  unfold CalendarPage.handleUpdateEvent, CalendarPage.saveEvents.
  rewrite Hu. cbn [CalendarPage.events].
  assert (EventModal.eventData trim f (Event.id e)
          ∈ map (fun event =>
                   if decide (Event.id event =
                              Event.id (EventModal.eventData trim f
                                          (Event.id e)))
                   then EventModal.eventData trim f (Event.id e)
                   else event) (CalendarPage.events p)) as Hin.
  { apply list_elem_of_fmap. exists e. split; [|exact He].
    rewrite decide_True; reflexivity. }
  split; [exact Hin|]. split; [|split; [reflexivity|]].
  - intros x (y & -> & Hy)%list_elem_of_fmap.
    case_decide as Hid; [reflexivity|]. cbn in Hid. intros E.
    contradiction.
  - intros R M r HM Hr Hid.
    rewrite mergedEvents_unfold in HM.
    destruct (GoogleCalendarSync.convertedEvents R) as [converted|] eqn:HR;
      [|discriminate].
    injection HM as <-. split.
    + apply elem_of_app. left. apply elem_of_List_filter.
      split; [exact Hin|reflexivity].
    + destruct (converted_member R converted r HR Hr) as (y & Hy & Hi & Hg).
      exists y. split; [apply elem_of_app; right; exact Hy|].
      rewrite Hid in Hi, Hg. split; [|split; assumption].
      intros ->. discriminate.
Qed.

Lemma edit_unlinks_event_example :
  CalendarPage.user CalendarPage.signed_in = Some "user@example.com"
  /\ CalendarPage.planning ∈ CalendarPage.events CalendarPage.signed_in
  /\ Event.googleEventId CalendarPage.planning = Some "g1"
  /\ CalendarPage.events
       (CalendarPage.submitModal (fun s => s) CalendarPage.moved_planning
          (Some CalendarPage.planning) "fresh" CalendarPage.signed_in)
     = [EventModal.eventData (fun s => s) CalendarPage.moved_planning "g1"]
  /\ Event.googleEventId
       (EventModal.eventData (fun s => s) CalendarPage.moved_planning "g1")
     = None.
Proof.
  assert (CalendarPage.planning ∈ CalendarPage.events CalendarPage.signed_in)
    as Hin by apply list_elem_of_here.
  split; [reflexivity|]. split; [exact Hin|]. split; [reflexivity|].
  split; [reflexivity|].
  exact (proj1 (proj2 (proj2
    (edit_unlinks_event (fun s => s) CalendarPage.moved_planning
       CalendarPage.planning "fresh" "user@example.com"
       CalendarPage.signed_in eq_refl Hin eq_refl)))).
Defined.




(** X4.  What a sync hands to [onEventsUpdate] is set in the state but not
    stored: a reload shows what it showed before the sync.  Once a saving
    handler has run on the synced state, the reload shows the list that
    handler left, the synced events included. *)
Theorem sync_is_not_stored (M : list Event.t) (p : CalendarPage.page) :
  CalendarPage.mount (CalendarPage.setEvents M p) = CalendarPage.mount p
  /\ forall event id,
       CalendarPage.user p <> None ->
       CalendarPage.events
         (CalendarPage.mount
            (CalendarPage.handleAddEvent event id
               (CalendarPage.setEvents M p)))
       = (M ++ [event id])%list.
Proof.
  split; [reflexivity|].
  intros event id Hu. destruct (CalendarPage.user p) as [email|] eqn:E;
    [|contradiction].
  unfold CalendarPage.handleAddEvent, CalendarPage.saveEvents,
    CalendarPage.setEvents, CalendarPage.mount, CalendarPage.loadEvents.
  cbn. rewrite E. cbn. rewrite lookup_insert_eq. reflexivity.
Qed.

Lemma sync_is_not_stored_example :
  CalendarPage.user CalendarPage.signed_in <> None
  /\ CalendarPage.events
       (CalendarPage.mount
          (CalendarPage.setEvents GoogleCalendarSync.scenario_expected
             CalendarPage.signed_in)) = []
  /\ CalendarPage.events
       (CalendarPage.mount
          (CalendarPage.handleAddEvent
             (EventModal.eventData (fun s => s) CalendarPage.moved_planning)
             "fresh"
             (CalendarPage.setEvents GoogleCalendarSync.scenario_expected
                CalendarPage.signed_in)))
     = (GoogleCalendarSync.scenario_expected
        ++ [EventModal.eventData (fun s => s) CalendarPage.moved_planning
              "fresh"])%list.
Proof.
  assert (CalendarPage.user CalendarPage.signed_in <> None) as Hu
    by discriminate.
  split; [exact Hu|]. split; [reflexivity|].
  exact (proj2 (sync_is_not_stored GoogleCalendarSync.scenario_expected
                  CalendarPage.signed_in) _ "fresh" Hu).
Defined.

Lemma filter_keeps_NoDup_ids {A} (ident : A -> string) (P : A -> Prop)
    `{!forall x, Decision (P x)} (l : list A) :
  NoDup (map ident l) -> NoDup (map ident (filter P l)).
Proof.
  intros Hnd. eapply sublist_NoDup; [exact Hnd|].
  apply (fmap_sublist ident), sublist_filter.
Qed.

Lemma filter_fresh_id {A} (ident : A -> string) (id : string) (l : list A) :
  id ∉ map ident l -> filter (fun x => ident x <> id) l = l.
Proof.
  induction l as [|x l IH]; [reflexivity|].
  cbn [map]. intros Hfresh. apply not_elem_of_cons in Hfresh as [Hx Hl].
  rewrite filter_cons_True by congruence. rewrite (IH Hl). reflexivity.
Qed.

(** X5.  On a signed-in page: adding an event under an id that no event
    carries and deleting that id again gives back the list of events;
    updating keeps the ids as they are; after a deletion no event carries
    the deleted id; and adding under a new id, updating and deleting keep
    the ids pairwise distinct. *)
Theorem page_ids (p : CalendarPage.page) (email : string) :
  CalendarPage.user p = Some email ->
  (forall event id,
      Event.id (event id) = id ->
      id ∉ map Event.id (CalendarPage.events p) ->
      CalendarPage.events
        (CalendarPage.handleDeleteEvent id
           (CalendarPage.handleAddEvent event id p))
      = CalendarPage.events p
      /\ (NoDup (map Event.id (CalendarPage.events p)) ->
          NoDup (map Event.id
                   (CalendarPage.events
                      (CalendarPage.handleAddEvent event id p)))))
  /\ (forall e,
       map Event.id (CalendarPage.events (CalendarPage.handleUpdateEvent e p))
       = map Event.id (CalendarPage.events p))
  /\ (forall id,
       (id ∉ map Event.id
               (CalendarPage.events (CalendarPage.handleDeleteEvent id p)))
       /\ (NoDup (map Event.id (CalendarPage.events p)) ->
           NoDup (map Event.id
                    (CalendarPage.events
                       (CalendarPage.handleDeleteEvent id p))))).
Proof.
  destruct p as [events user stored]. cbn. intros ->. split; [|split].
  - intros event id Hid Hfresh.
    unfold CalendarPage.handleDeleteEvent, CalendarPage.handleAddEvent,
      CalendarPage.saveEvents. cbn. split.
    + rewrite filter_app, filter_cons_False, filter_nil, app_nil_r
        by (cbv beta; rewrite Hid; auto).
      apply filter_fresh_id, Hfresh.
    + intros Hnd. rewrite map_app. cbn. rewrite Hid.
      apply NoDup_app. split; [exact Hnd|]. split.
      * intros x Hx [->|H]%elem_of_cons; [contradiction|inversion H].
      * apply NoDup_singleton.
  - intros e. unfold CalendarPage.handleUpdateEvent, CalendarPage.saveEvents.
    cbn. rewrite map_map. apply map_ext_in. intros x _.
    case_decide as E; congruence.
  - intros id. unfold CalendarPage.handleDeleteEvent, CalendarPage.saveEvents.
    cbn. split.
    + intros (x & Hx & [Hne _]%list_elem_of_filter)%list_elem_of_fmap.
      congruence.
    + apply filter_keeps_NoDup_ids.
Qed.

Lemma page_ids_example :
  CalendarPage.user CalendarPage.signed_in = Some "user@example.com"
  /\ ("fresh" ∉ map Event.id (CalendarPage.events CalendarPage.signed_in))
  /\ CalendarPage.events
       (CalendarPage.handleDeleteEvent "fresh"
          (CalendarPage.handleAddEvent
             (EventModal.eventData (fun s => s) CalendarPage.moved_planning)
             "fresh" CalendarPage.signed_in))
     = CalendarPage.events CalendarPage.signed_in.
Proof.
  assert ("fresh" ∉ map Event.id (CalendarPage.events CalendarPage.signed_in))
    as Hfresh.
  { intros [H|H]%elem_of_cons; [discriminate|inversion H]. }
  split; [reflexivity|]. split; [exact Hfresh|].
  exact (proj1 (proj1 (page_ids CalendarPage.signed_in "user@example.com"
                         eq_refl)
                  (EventModal.eventData (fun s => s)
                     CalendarPage.moved_planning)
                  "fresh" eq_refl Hfresh)).
Defined.

(** ** What the merge discards *)

Lemma converted_origin (R : list GoogleEvent.t) (converted : list Event.t)
    (x : Event.t) :
  GoogleCalendarSync.convertedEvents R = Js.Ok converted -> x ∈ converted ->
  exists r, r ∈ R /\ GoogleCalendarSync.convert r = Js.Ok x.
Proof.
  unfold GoogleCalendarSync.convertedEvents.
  revert converted. induction R as [|r0 R IH]; intros converted Hc Hx.
  - injection Hc as <-. inversion Hx.
  - cbn in Hc. unfold mbind, result_bind, Js.bind in Hc.
    destruct (GoogleCalendarSync.convert r0) as [y0|] eqn:H0;
      [|discriminate].
    destruct (Js.mapM _ R) as [tl|] eqn:Htl; [|discriminate].
    injection Hc as <-.
    apply elem_of_cons in Hx as [->|Hx].
    + exists r0. split; [apply list_elem_of_here|exact H0].
    + destruct (IH tl eq_refl Hx) as (r & Hr & Hcv).
      exists r. split; [apply list_elem_of_further, Hr|exact Hcv].
Qed.

Lemma count_ids_fetched (g : string) (R : list GoogleEvent.t) :
  length (filter (fun o => o = Some g)
            (map (fun r => Some (GoogleEvent.id r)) R)) =
  length (filter (fun r => GoogleEvent.id r = g) R).
Proof.
  induction R as [|r R IH]; [reflexivity|].
  cbn [map]. rewrite !filter_cons.
  destruct (decide (Some (GoogleEvent.id r) = Some g)) as [E|E],
    (decide (GoogleEvent.id r = g)) as [E'|E']; cbn; congruence.
Qed.

(** X6.  The remote wins for linked events, with or without repeated
    ids: in a merge, the events that carry a non-empty external id [g] are
    exactly as many as the fetched entries with id [g], and each of them
    is the image of a fetched entry.  A linked local event whose id was
    not fetched is gone after the merge, and a local change to a linked
    event never reaches the merged list. *)
Theorem merge_remote_wins (L : list Event.t) (R : list GoogleEvent.t)
    (M : list Event.t) :
  GoogleCalendarSync.mergedEvents L R = Js.Ok M ->
  (forall g, g <> EmptyString ->
     GoogleCalendarSync.count_external g M =
     length (filter (fun r => GoogleEvent.id r = g) R))
  /\ (forall x g, x ∈ M -> Event.googleEventId x = Some g ->
        g <> EmptyString ->
        exists r, r ∈ R /\ GoogleEvent.id r = g
                  /\ GoogleCalendarSync.convert r = Js.Ok x).
Proof.
  rewrite mergedEvents_unfold.
  destruct (GoogleCalendarSync.convertedEvents R) as [converted|] eqn:HR;
    [|discriminate].
  intros [= <-]. split.
  - intros g Hg.
    rewrite count_external_app, (count_external_not_synced g L Hg).
    rewrite count_external_ids, (converted_synced R converted HR).
    apply count_ids_fetched.
  - intros x g [Hx|Hx]%elem_of_app Hgid Hg.
    + apply elem_of_List_filter in Hx as [_ Hx].
      unfold GoogleCalendarSync.not_synced in Hx. rewrite Hgid in Hx.
      destruct g; [congruence|discriminate].
    + destruct (converted_origin R converted x HR Hx) as (r & Hr & Hcv).
      exists r. split; [exact Hr|]. split; [|exact Hcv].
      unfold GoogleCalendarSync.convert, mbind, result_bind, Js.bind in Hcv.
      destruct (Js.index_substring _ 1 5); [|discriminate].
      destruct (Js.index_substring _ 1 5); [|discriminate].
      injection Hcv as <-. cbn in Hgid. congruence.
Qed.

(** The linked event of the page is not in the fetched list: the merge
    drops it. *)
Lemma merge_remote_wins_example :
  GoogleCalendarSync.mergedEvents [CalendarPage.planning] [] = Js.Ok []
  /\ GoogleCalendarSync.count_external "g1" [] = 0%nat.
Proof.
  split; [reflexivity|].
  exact (proj1 (merge_remote_wins [CalendarPage.planning] [] [] eq_refl)
           "g1" ltac:(discriminate)).
Defined.

(** ** The sync component *)

Section SyncFacts.
Import Async GoogleAuthService SyncComponent.
Variable builtin : string.

Abbreviation syncCalendar := (syncCalendar builtin).
Abbreviation connectGoogleCalendar := (connectGoogleCalendar builtin).

(** With a token that needs no refresh, [getEvents] goes straight to its
    request. *)
Lemma getEvents_valid (e : env (option (list GoogleEvent.t))) (st : state)
    (tok : string) :
  needs_refresh (now e) st = false ->
  accessToken st = Some tok -> Js.truthy tok = true ->
  getEvents e st =
  match fetched e with
  | Settled (Js.Ok (HttpOk (Js.Ok items))) =>
      Run st [Fetch GET tok] (Settled (Js.Ok (default [] items)))
  | Settled (Js.Ok (HttpOk (Js.Throw err))) =>
      Run st [Fetch GET tok] (Settled (Js.Throw err))
  | Settled (Js.Ok (HttpError (Js.Ok error))) =>
      if unauthenticated error
      then Run (mkState (tokenClient st) None None) [Fetch GET tok]
               (Settled (Js.Throw (Js.Error "authentication expired")))
      else Run st [Fetch GET tok]
               (Settled (Js.Throw
                  (Js.Error (message_or error "Failed to fetch events"))))
  | Settled (Js.Ok (HttpError (Js.Throw err))) =>
      Run st [Fetch GET tok] (Settled (Js.Throw err))
  | Settled (Js.Throw err) => Run st [Fetch GET tok] (Settled (Js.Throw err))
  | Pending => Run st [Fetch GET tok] Pending
  end.
Proof.
  intros Hn Htok Ht. unfold getEvents.
  unfold mbind at 1. unfold async_bind, Async.bind.
  rewrite refresh_unfold, Hn.
  unfold bearer_token, reject_response, clear_credential, mbind,
    async_bind, Async.bind, get, perform, lift, await, throw, modify,
    mret, async_ret, ret.
  rewrite Htok, Ht.
  destruct (fetched e) as [[[[items|]|[error|]]|]|]; cbn -[unauthenticated];
    try reflexivity.
  destruct (unauthenticated error); reflexivity.
Qed.

(** X7.  A sync of the connected component whose request is answered
    with a 401 / UNAUTHENTICATED body: the stored credential is cleared,
    the component is disconnected and no longer loading, the one request
    made is the list request, [onEventsUpdate] is not called, and the toast
    is "Authentication Expired". *)
Theorem sync_unauthenticated (c : component) (events : list Event.t)
    (e : env (option (list GoogleEvent.t))) (synced_at : Z) (st : state)
    (tok : string) (err : error_obj) :
  isConnected c = true ->
  needs_refresh (now e) st = false ->
  accessToken st = Some tok -> Js.truthy tok = true ->
  fetched e = Settled (Js.Ok (HttpError (Js.Ok (Some err)))) ->
  status err = Some "UNAUTHENTICATED" \/ code err = Some 401 ->
  syncCalendar c events e synced_at st =
  mkResult (mkComponent false false (lastSyncTime c))
           (mkState (tokenClient st) None None)
           [Fetch GET tok] None [AuthenticationExpired] true.
Proof.
  intros Hc Hn Htok Ht Hf Hu%unauthenticated_true.
  unfold SyncComponent.syncCalendar.
  rewrite Hc, (getEvents_valid e st tok Hn Htok Ht), Hf, Hu.
  reflexivity.
Qed.

Lemma convertedEvents_ill_timed (R : list GoogleEvent.t) :
  ~ Forall GoogleCalendarSync.well_timed R ->
  GoogleCalendarSync.convertedEvents R = Js.Throw Js.TypeError.
Proof.
  unfold GoogleCalendarSync.convertedEvents.
  induction R as [|r R IH]; intros Hnot.
  - exfalso. apply Hnot. constructor.
  - cbn. unfold mbind, result_bind, Js.bind.
    destruct (GoogleCalendarSync.convert r) as [y|err] eqn:Hr.
    + rewrite IH; [reflexivity|]. intros HR. apply Hnot. constructor;
        [|exact HR].
      unfold GoogleCalendarSync.well_timed.
      unfold GoogleCalendarSync.convert, mbind, result_bind, Js.bind in Hr.
      rewrite !index_substring_clock in Hr.
      destruct (GoogleCalendarSync.contains _
                  (GoogleEvent.start_dateTime r)); [|discriminate].
      destruct (GoogleCalendarSync.contains _
                  (GoogleEvent.end_dateTime r)); [|discriminate].
      auto.
    + unfold GoogleCalendarSync.convert, mbind, result_bind, Js.bind in Hr.
      rewrite !index_substring_clock in Hr.
      destruct (GoogleCalendarSync.contains _
                  (GoogleEvent.start_dateTime r));
        [|congruence].
      destruct (GoogleCalendarSync.contains _
                  (GoogleEvent.end_dateTime r)); congruence.
Qed.

(** X8.  A sync of the connected component whose request is answered ok.
    If every fetched [dateTime] has its ['T'], [onEventsUpdate] receives
    the unlinked local events followed by the images of the fetched
    entries (when the body has no [items], the unlinked local events
    alone), the sync time is set and the credential is untouched.  If
    some [dateTime] has none, the conversion throws: [onEventsUpdate] is
    not called, the component stays connected and shows "Sync Failed". *)
Theorem sync_answered (c : component) (events : list Event.t)
    (e : env (option (list GoogleEvent.t))) (synced_at : Z) (st : state)
    (tok : string) (items : option (list GoogleEvent.t)) :
  isConnected c = true ->
  needs_refresh (now e) st = false ->
  accessToken st = Some tok -> Js.truthy tok = true ->
  fetched e = Settled (Js.Ok (HttpOk (Js.Ok items))) ->
  (Forall GoogleCalendarSync.well_timed (default [] items) ->
     syncCalendar c events e synced_at st =
     mkResult (mkComponent true false (Some synced_at)) st [Fetch GET tok]
       (Some (GoogleCalendarSync.spec_merge events (default [] items)))
       [CalendarSynced] true)
  /\ (~ Forall GoogleCalendarSync.well_timed (default [] items) ->
      includes "authentication expired" builtin = false ->
      updated (syncCalendar c events e synced_at st) = None
      /\ after (syncCalendar c events e synced_at st)
         = mkComponent true false (lastSyncTime c)
      /\ service (syncCalendar c events e synced_at st) = st
      /\ exists text,
           toasts (syncCalendar c events e synced_at st) = [SyncFailed text]).
Proof.
  intros Hc Hn Htok Ht Hf.
  unfold SyncComponent.syncCalendar.
  rewrite Hc, (getEvents_valid e st tok Hn Htok Ht), Hf.
  cbn [negb outcome final calls].
  unfold mbind, result_bind, Js.bind. cbv beta iota.
  rewrite mergedEvents_unfold. split.
  - intros HR. rewrite (convertedEvents_well_timed _ HR), filter_not_synced.
    reflexivity.
  - intros HR Hb. rewrite (convertedEvents_ill_timed _ HR).
    cbn [message_of]. rewrite Hb. cbn. eauto.
Qed.

Lemma authorize_calls (clientId : bool) (loaded : completion unit)
    (answer : token_response) (checked_at : Z) (st : state) :
  fetches (calls (authorize clientId loaded answer checked_at st)) = [].
Proof.
  unfold authorize, requestAccess, requestAccess_start,
    requestAccess_settle, init, mbind, async_bind, Async.bind, get, perform,
    lift, await, modify, throw, mret, async_ret, ret.
  destruct st as [[] tok ex], clientId, loaded as [[[]|err]|], answer;
    cbn; try reflexivity;
    match goal with
    | |- context [isAuthenticated ?t ?s] =>
        destruct (isAuthenticated t s); reflexivity
    end.
Qed.

(** X9.  [syncCalendar] calls [onEventsUpdate] only after a list request
    that returned events which the merge accepted, and then the component
    is connected, not loading and shows "Calendar Synced"; a component
    that is not connected makes no request and changes nothing; and when
    the handler returns on a connected component, the component is not
    loading. *)
Theorem sync_updates_only_on_success (c : component)
    (events : list Event.t) (e : env (option (list GoogleEvent.t)))
    (synced_at : Z) (st : state) :
  (forall M,
      updated (syncCalendar c events e synced_at st) = Some M ->
      isConnected c = true
      /\ after (syncCalendar c events e synced_at st)
         = mkComponent true false (Some synced_at)
      /\ toasts (syncCalendar c events e synced_at st) = [CalendarSynced]
      /\ exists R,
           outcome (getEvents e st) = Settled (Js.Ok R)
           /\ GoogleCalendarSync.mergedEvents events R = Js.Ok M)
  /\ (isConnected c = false ->
      syncCalendar c events e synced_at st = mkResult c st [] None [] true)
  /\ (isConnected c = true ->
      returned (syncCalendar c events e synced_at st) = true ->
      isLoading (after (syncCalendar c events e synced_at st)) = false).
Proof.
  unfold SyncComponent.syncCalendar.
  destruct (isConnected c) eqn:Hc; cbn [negb].
  - destruct (outcome (getEvents e st)) as [[R|err]|] eqn:Ho.
    + cbn. destruct (GoogleCalendarSync.mergedEvents events R) as [M0|err]
        eqn:HM.
      * split; [|split; [discriminate|reflexivity]].
        cbn. intros M [= <-]. eauto 6.
      * split; [|split; [discriminate|]];
          destruct (includes _ _); cbn; try discriminate; reflexivity.
    + cbn. split; [|split; [discriminate|]];
        destruct (includes _ _); cbn; try discriminate; reflexivity.
    + cbn. split; [discriminate|]. split; discriminate.
  - cbn. split; [discriminate|]. split; [reflexivity|discriminate].
Qed.

(** X10.  [connectGoogleCalendar] from a render in which the component is
    not connected (the only one that shows the button) never syncs: the
    [syncCalendar] it awaits still sees [isConnected = false], so whatever
    the consent flow and the remote answer, no calendar request is made
    and [onEventsUpdate] is not called.  When access is granted with a
    token that is valid at the check, the component ends connected and not
    loading, the credential is stored, and the only request is the token
    request. *)
Theorem connect_does_not_sync (c : component) (events : list Event.t)
    (clientId : bool) (loaded : completion unit) (answer : token_response)
    (checked_at : Z) (e : env (option (list GoogleEvent.t)))
    (synced_at : Z) (st : state) :
  isConnected c = false ->
  updated (connectGoogleCalendar c events clientId loaded answer checked_at
             e synced_at st) = None
  /\ fetches (requests (connectGoogleCalendar c events clientId loaded
                          answer checked_at e synced_at st)) = []
  /\ forall tok expires_in at_,
       clientId = true -> loaded = Settled (Js.Ok tt) ->
       answer = Granted tok expires_in at_ ->
       Js.truthy tok = true ->
       at_ + expires_in * 1000 <> 0 ->
       checked_at < at_ + expires_in * 1000 ->
       connectGoogleCalendar c events clientId loaded answer checked_at
         e synced_at st
       = mkResult (mkComponent true false (lastSyncTime c))
           (mkState true (Some tok) (Some (at_ + expires_in * 1000)))
           [TokenRequest] None [Connected] true.
Proof.
  intros Hc. unfold SyncComponent.connectGoogleCalendar.
  pose proof (authorize_calls clientId loaded answer checked_at st) as Ha.
  split; [|split].
  - destruct (outcome (authorize _ _ _ _ _)) as [[[]|err]|];
      try reflexivity.
    rewrite Hc. unfold SyncComponent.syncCalendar. rewrite Hc. reflexivity.
  - destruct (outcome (authorize _ _ _ _ _)) as [[[]|err]|];
      try exact Ha.
    rewrite Hc. unfold SyncComponent.syncCalendar. rewrite Hc.
    cbn. rewrite app_nil_r. exact Ha.
  - intros tok expires_in at_ -> -> -> Ht Hne Hlt.
    assert (authorize true (Settled (Js.Ok tt))
              (Granted tok expires_in at_) checked_at st
            = Run (mkState true (Some tok)
                     (Some (at_ + expires_in * 1000)))
                  [TokenRequest] (Settled (Js.Ok tt))) as ->.
    { unfold authorize, requestAccess, requestAccess_start,
        requestAccess_settle, init, mbind, async_bind, Async.bind, get,
        perform, lift, await, modify, throw, mret, async_ret, ret,
        isAuthenticated.
      destruct st as [[] tok0 ex]; cbn; rewrite Ht;
        rewrite (proj2 (Z.eqb_neq _ _) Hne), (proj2 (Z.ltb_lt _ _) Hlt);
        reflexivity. }
    cbn [outcome final calls]. rewrite Hc.
    unfold SyncComponent.syncCalendar. rewrite Hc. reflexivity.
Qed.

(** X11.  [connectGoogleCalendar] refused: without a client id nothing is
    requested at all and the toast carries the configuration message; when
    the user declines the consent ("access_denied") the toast is
    "Connection Cancelled".  Either way the component ends disconnected
    and not loading, and the stored token and expiry are as before. *)
Theorem connect_refused (c : component) (events : list Event.t)
    (loaded : completion unit) (answer : token_response)
    (checked_at : Z) (e : env (option (list GoogleEvent.t)))
    (synced_at : Z) (st : state) :
  (exists text,
      connectGoogleCalendar c events false loaded answer checked_at e
        synced_at st
      = mkResult (mkComponent false false (lastSyncTime c)) st [] None
          [ConnectionFailed text] true
      /\ includes "VITE_GOOGLE_CLIENT_ID" text = true)
  /\ (tokenClient st = true \/ loaded = Settled (Js.Ok tt) ->
      answer = Rejected (Js.Error "access_denied") ->
      connectGoogleCalendar c events true loaded answer checked_at e
        synced_at st
      = mkResult (mkComponent false false (lastSyncTime c))
          (mkState true (accessToken st) (tokenExpiry st))
          [TokenRequest] None [ConnectionCancelled] true).
Proof.
  split.
  - eexists. split; [reflexivity|]. vm_compute. reflexivity.
  - intros Hready ->. unfold SyncComponent.connectGoogleCalendar.
    assert (authorize true loaded (Rejected (Js.Error "access_denied"))
              checked_at st
            = Run (mkState true (accessToken st) (tokenExpiry st))
                  [TokenRequest]
                  (Settled (Js.Throw (Js.Error "access_denied")))) as ->.
    { unfold authorize, requestAccess, requestAccess_start,
        requestAccess_settle, init, mbind, async_bind, Async.bind, get,
        perform, lift, await, modify, throw, mret, async_ret, ret.
      destruct st as [[] tok0 ex]; cbn; [reflexivity|].
      destruct Hready as [H | ->]; [discriminate|reflexivity]. }
    reflexivity.
Qed.
End SyncFacts.

Lemma sync_unauthenticated_example :
  SyncComponent.isConnected SyncComponent.linked = true
  /\ GoogleAuthService.needs_refresh GoogleAuthService.instant_0
       GoogleAuthService.fresh_state = false
  /\ SyncComponent.syncCalendar EmptyString SyncComponent.linked
       GoogleCalendarSync.scenario_local GoogleAuthService.rejecting_env
       GoogleAuthService.instant_0 GoogleAuthService.fresh_state
     = SyncComponent.mkResult
         (SyncComponent.mkComponent false false None)
         (GoogleAuthService.mkState true None None)
         [GoogleAuthService.Fetch GoogleAuthService.GET "ya29.token"]
         None [SyncComponent.AuthenticationExpired] true.
Proof.
  split; [reflexivity|]. split; [reflexivity|].
  exact (sync_unauthenticated EmptyString SyncComponent.linked
           GoogleCalendarSync.scenario_local GoogleAuthService.rejecting_env
           GoogleAuthService.instant_0 GoogleAuthService.fresh_state
           "ya29.token" GoogleAuthService.unauthenticated_error
           eq_refl eq_refl eq_refl eq_refl eq_refl (or_introl eq_refl)).
Defined.

Lemma sync_answered_example :
  SyncComponent.isConnected SyncComponent.linked = true
  /\ Forall GoogleCalendarSync.well_timed GoogleCalendarSync.scenario_remote
  /\ SyncComponent.updated
       (SyncComponent.syncCalendar EmptyString SyncComponent.linked
          GoogleCalendarSync.scenario_local SyncComponent.answering_env
          GoogleAuthService.instant_0 GoogleAuthService.fresh_state)
     = Some GoogleCalendarSync.scenario_expected.
Proof.
  assert (Forall GoogleCalendarSync.well_timed
            GoogleCalendarSync.scenario_remote) as HR
    by (repeat constructor).
  split; [reflexivity|]. split; [exact HR|].
  rewrite (proj1 (sync_answered EmptyString SyncComponent.linked
                    GoogleCalendarSync.scenario_local
                    SyncComponent.answering_env GoogleAuthService.instant_0
                    GoogleAuthService.fresh_state "ya29.token"
                    (Some GoogleCalendarSync.scenario_remote)
                    eq_refl eq_refl eq_refl eq_refl eq_refl) HR).
  reflexivity.
Defined.

Lemma sync_updates_only_on_success_example :
  SyncComponent.isConnected SyncComponent.idle = false
  /\ SyncComponent.syncCalendar EmptyString SyncComponent.idle
       GoogleCalendarSync.scenario_local SyncComponent.answering_env
       GoogleAuthService.instant_0 GoogleAuthService.fresh_state
     = SyncComponent.mkResult SyncComponent.idle
         GoogleAuthService.fresh_state [] None [] true.
Proof.
  split; [reflexivity|].
  exact (proj1 (proj2 (sync_updates_only_on_success EmptyString
                         SyncComponent.idle
                         GoogleCalendarSync.scenario_local
                         SyncComponent.answering_env
                         GoogleAuthService.instant_0
                         GoogleAuthService.fresh_state)) eq_refl).
Defined.

Lemma connect_does_not_sync_example :
  SyncComponent.isConnected SyncComponent.idle = false
  /\ SyncComponent.connectGoogleCalendar EmptyString SyncComponent.idle
       GoogleCalendarSync.scenario_local true
       (Async.Settled (Js.Ok tt)) SyncComponent.granting
       (GoogleAuthService.instant_0 + 1) SyncComponent.answering_env
       (GoogleAuthService.instant_0 + 2) SyncComponent.signed_out
     = SyncComponent.mkResult
         (SyncComponent.mkComponent true false None)
         (GoogleAuthService.mkState true (Some "ya29.fresh")
            (Some (GoogleAuthService.instant_0 + 3600 * 1000)))
         [GoogleAuthService.TokenRequest] None [SyncComponent.Connected]
         true.
Proof.
  split; [reflexivity|].
  exact (proj2 (proj2 (connect_does_not_sync EmptyString SyncComponent.idle
                         GoogleCalendarSync.scenario_local true
                         (Async.Settled (Js.Ok tt)) SyncComponent.granting
                         (GoogleAuthService.instant_0 + 1)
                         SyncComponent.answering_env
                         (GoogleAuthService.instant_0 + 2)
                         SyncComponent.signed_out eq_refl))
           "ya29.fresh" 3600 GoogleAuthService.instant_0
           eq_refl eq_refl eq_refl eq_refl ltac:(discriminate) eq_refl).
Defined.

Lemma connect_refused_example :
  SyncComponent.connectGoogleCalendar EmptyString SyncComponent.idle
    GoogleCalendarSync.scenario_local true (Async.Settled (Js.Ok tt))
    (GoogleAuthService.Rejected (Js.Error "access_denied"))
    (GoogleAuthService.instant_0 + 1) SyncComponent.answering_env
    (GoogleAuthService.instant_0 + 2) SyncComponent.signed_out
  = SyncComponent.mkResult (SyncComponent.mkComponent false false None)
      (GoogleAuthService.mkState true None None)
      [GoogleAuthService.TokenRequest] None
      [SyncComponent.ConnectionCancelled] true.
Proof.
  exact (proj2 (connect_refused EmptyString SyncComponent.idle
                  GoogleCalendarSync.scenario_local
                  (Async.Settled (Js.Ok tt))
                  (GoogleAuthService.Rejected (Js.Error "access_denied"))
                  (GoogleAuthService.instant_0 + 1)
                  SyncComponent.answering_env
                  (GoogleAuthService.instant_0 + 2)
                  SyncComponent.signed_out)
           (or_intror eq_refl) eq_refl).
Defined.

(** ** More on the credential *)

Section CredentialFacts.
Import Async GoogleAuthService.

Ltac run_service :=
  unfold getEvents, addEvent, refreshTokenIfNeeded, requestAccess,
    requestAccess_start, requestAccess_settle, init, bearer_token,
    reject_response, clear_credential, logout, mbind, async_bind,
    Async.bind, get, perform, lift, await, modify, throw, mret, async_ret,
    ret.

(** X12.  A calendar call that finds the token in need of a refresh and
    is granted a new one sends its request with the new token: the calls
    are the token request and then one request carrying the granted
    token, and when the remote answers with events, the call returns them
    (none when the body has no [items]) and the service holds the new
    token with the expiry computed from the grant. *)
Theorem refreshed_call_uses_new_token (st : state) (tok : string)
    (expires_in at_ : Z) (e : env (option (list GoogleEvent.t))) :
  needs_refresh (now e) st = true ->
  tokenClient st = true \/ init_result e = Settled (Js.Ok tt) ->
  token e = Granted tok expires_in at_ ->
  Js.truthy tok = true ->
  calls (getEvents e st) = [TokenRequest; Fetch GET tok]
  /\ forall items,
       fetched e = Settled (Js.Ok (HttpOk (Js.Ok items))) ->
       getEvents e st =
       Run (mkState true (Some tok) (Some (at_ + expires_in * 1000)))
           [TokenRequest; Fetch GET tok]
           (Settled (Js.Ok (default [] items))).
Proof.
  intros Hn Hready Htoken Ht. run_service. rewrite Hn, Htoken.
  destruct st as [[] tok0 ex]; cbn -[unauthenticated] in *.
  - rewrite Ht. split.
    + destruct (fetched e) as [[[[items|]|[error|]]|]|];
        cbn -[unauthenticated]; try reflexivity.
      destruct (unauthenticated error); reflexivity.
    + intros items ->. reflexivity.
  - destruct Hready as [H | ->]; [discriminate|]. cbn -[unauthenticated].
    rewrite Ht. split.
    + destruct (fetched e) as [[[[items|]|[error|]]|]|];
        cbn -[unauthenticated]; try reflexivity.
      destruct (unauthenticated error); reflexivity.
    + intros items ->. reflexivity.
Qed.

(** X13.  A response that is not ok and is not a 401 / UNAUTHENTICATED
    body leaves the credential in place: with a token that needs no
    refresh, [getEvents] and [addEvent] make their one request, keep the
    service as it was, and fail with the message of the body, or with
    'Failed to fetch events' / 'Failed to add event' when the body has no
    message. *)
Theorem other_errors_keep_credential (st : state) (tok : string)
    (error : option error_obj) :
  accessToken st = Some tok -> Js.truthy tok = true ->
  unauthenticated error = false ->
  (forall e : env (option (list GoogleEvent.t)),
      needs_refresh (now e) st = false ->
      fetched e = Settled (Js.Ok (HttpError (Js.Ok error))) ->
      getEvents e st =
      Run st [Fetch GET tok]
          (Settled (Js.Throw
             (Js.Error (message_or error "Failed to fetch events")))))
  /\ (forall (event : Event.t) (e : env GoogleEvent.t),
      needs_refresh (now e) st = false ->
      fetched e = Settled (Js.Ok (HttpError (Js.Ok error))) ->
      addEvent event e st =
      Run st [Fetch POST tok]
          (Settled (Js.Throw
             (Js.Error (message_or error "Failed to add event")))))
  /\ (forall fallback,
      message_or error fallback = fallback
      \/ exists err text,
           error = Some err /\ message err = Some text
           /\ text <> EmptyString /\ message_or error fallback = text).
Proof.
  intros Htok Ht Hu. split; [|split].
  - intros e Hn Hf. run_service. rewrite Hn. cbn -[unauthenticated].
    rewrite Htok, Ht, Hf. cbn -[unauthenticated]. rewrite Hu. reflexivity.
  - intros event e Hn Hf. run_service. rewrite Hn. cbn -[unauthenticated].
    rewrite Htok, Ht, Hf. cbn -[unauthenticated]. rewrite Hu. reflexivity.
  - intros fallback. unfold message_or.
    destruct error as [err|]; [|left; reflexivity].
    destruct (message err) as [[|a text]|] eqn:Hm; cbn;
      [left; reflexivity| |left; reflexivity].
    right. exists err, (String a text). repeat split; try assumption.
    discriminate.
Qed.

(** X14.  After [logout], as after a 401, no token is stored: the service
    is not authenticated at any instant, and a later calendar call never
    sends a request with an old token: any request it makes carries the
    token granted to that very call. *)
Theorem cleared_credential_is_not_reused (st : state) :
  let cleared := final (logout st) in
  accessToken cleared = None /\ tokenExpiry cleared = None
  /\ (forall now, isAuthenticated now cleared = false)
  /\ (forall (e : env (option (list GoogleEvent.t))) m tok,
        Fetch m tok ∈ calls (getEvents e cleared) ->
        m = GET /\ exists expires_in at_, token e = Granted tok expires_in at_)
  /\ (forall event (e : env GoogleEvent.t) m tok,
        Fetch m tok ∈ calls (addEvent event e cleared) ->
        m = POST
        /\ exists expires_in at_, token e = Granted tok expires_in at_).
Proof.
  cbv zeta. split; [reflexivity|]. split; [reflexivity|].
  split; [reflexivity|]. split.
  - intros e m tok. run_service. cbn -[unauthenticated].
    destruct (tokenClient st), (init_result e) as [[[]|err0]|],
      (token e) as [tok1 ex1 at1|err1|]; cbn -[unauthenticated];
      try (intros H; repeat (apply elem_of_cons in H as [H|H]);
           try discriminate; inversion H; fail).
    all: destruct tok1 as [|a tok1]; cbn -[unauthenticated];
      try (intros H; repeat (apply elem_of_cons in H as [H|H]);
           try discriminate; inversion H; fail).
    all: destruct (fetched e) as [[[[items|]|[error|]]|]|];
      cbn -[unauthenticated]; try destruct (unauthenticated error);
      cbn; intros H; repeat (apply elem_of_cons in H as [H|H]);
      try discriminate; try (inversion H; fail);
      injection H as -> ->; eauto.
  - intros event e m tok. run_service. cbn -[unauthenticated].
    destruct (tokenClient st), (init_result e) as [[[]|err0]|],
      (token e) as [tok1 ex1 at1|err1|]; cbn -[unauthenticated];
      try (intros H; repeat (apply elem_of_cons in H as [H|H]);
           try discriminate; inversion H; fail).
    all: destruct tok1 as [|a tok1]; cbn -[unauthenticated];
      try (intros H; repeat (apply elem_of_cons in H as [H|H]);
           try discriminate; inversion H; fail).
    all: destruct (fetched e) as [[[[items|]|[error|]]|]|];
      cbn -[unauthenticated]; try destruct (unauthenticated error);
      cbn; intros H; repeat (apply elem_of_cons in H as [H|H]);
      try discriminate; try (inversion H; fail);
      injection H as -> ->; eauto.
Qed.
End CredentialFacts.

Lemma refreshed_call_uses_new_token_example :
  GoogleAuthService.needs_refresh GoogleAuthService.instant_0
    GoogleAuthService.expiring_state = true
  /\ GoogleAuthService.getEvents SyncComponent.renewing_env
       GoogleAuthService.expiring_state
     = Async.Run
         (GoogleAuthService.mkState true (Some "ya29.fresh")
            (Some (GoogleAuthService.instant_0 + 3600 * 1000)))
         [GoogleAuthService.TokenRequest;
          GoogleAuthService.Fetch GoogleAuthService.GET "ya29.fresh"]
         (Async.Settled (Js.Ok GoogleCalendarSync.scenario_remote)).
Proof.
  split; [reflexivity|].
  exact (proj2 (refreshed_call_uses_new_token
                  GoogleAuthService.expiring_state "ya29.fresh" 3600
                  GoogleAuthService.instant_0 SyncComponent.renewing_env
                  eq_refl (or_introl eq_refl) eq_refl eq_refl)
           (Some GoogleCalendarSync.scenario_remote) eq_refl).
Defined.

Lemma other_errors_keep_credential_example :
  GoogleAuthService.unauthenticated SyncComponent.backend_error = false
  /\ GoogleAuthService.getEvents SyncComponent.failing_env
       GoogleAuthService.fresh_state
     = Async.Run GoogleAuthService.fresh_state
         [GoogleAuthService.Fetch GoogleAuthService.GET "ya29.token"]
         (Async.Settled (Js.Throw (Js.Error "Backend Error"))).
Proof.
  split; [reflexivity|].
  exact (proj1 (other_errors_keep_credential GoogleAuthService.fresh_state
                  "ya29.token" SyncComponent.backend_error
                  eq_refl eq_refl eq_refl)
           SyncComponent.failing_env eq_refl eq_refl).
Defined.

(** ** More on the dispatch *)

Section DispatchFacts.
Import Async NotificationService RemindersPanel.

Lemma stays_bind {S E A B} (P : E -> Prop) (m : Async.M S E A)
    (k : A -> Async.M S E B) :
  stays_in P m -> (forall a, stays_in P (k a)) -> stays_in P (m ≫= k).
Proof.
  intros Hm Hk s x. unfold mbind, async_bind, Async.bind.
  specialize (Hm s). destruct (m s) as [s1 l1 [[a|e]|]]; cbn in *;
    [|exact (Hm x)|exact (Hm x)].
  intros [H|H]%elem_of_app; [exact (Hm x H)|exact (Hk a s1 x H)].
Qed.

Lemma stays_try_catch {S E A} (P : E -> Prop) (body : Async.M S E A)
    (handler : Js.error -> Async.M S E A) :
  stays_in P body -> (forall e, stays_in P (handler e)) ->
  stays_in P (try_catch body handler).
Proof.
  intros Hb Hh s x. unfold try_catch.
  specialize (Hb s). destruct (body s) as [s1 l1 [[a|e]|]]; cbn in *;
    [exact (Hb x)| |exact (Hb x)].
  intros [H|H]%elem_of_app; [exact (Hb x H)|exact (Hh e s1 x H)].
Qed.

Lemma stays_silent {S E A} (P : E -> Prop) (c : completion A) :
  stays_in P (await c : Async.M S E A).
Proof. intros s x H. inversion H. Qed.

Lemma stays_perform {S E} (P : E -> Prop) (c : E) :
  P c -> stays_in P (perform c : Async.M S E unit).
Proof.
  intros Hc s x [->|H]%elem_of_cons; [exact Hc|inversion H].
Qed.

(** X15.  [sendEmailNotification] never rejects.  It yields [true]
    exactly when the configuration is complete and [emailjs.send] is
    fulfilled; without the complete configuration it calls no provider
    and yields [false]; and [emailjs.send] is the only call it ever
    makes, at most once. *)
Theorem sendEmailNotification_result (cfg : config) (w : world)
    (reminder : Reminder.t) (userEmail : string) (name : option string) :
  (forall err,
      outcome (sendEmailNotification cfg w reminder userEmail name tt)
      <> Settled (Js.Throw err))
  /\ (outcome (sendEmailNotification cfg w reminder userEmail name tt)
       = Settled (Js.Ok true)
     <-> email_configured cfg = true
         /\ emailjs_send w = Settled (Js.Ok tt))
  /\ (email_configured cfg = false ->
      sendEmailNotification cfg w reminder userEmail name tt
      = Run tt [] (Settled (Js.Ok false)))
  /\ (calls (sendEmailNotification cfg w reminder userEmail name tt) = []
      \/ calls (sendEmailNotification cfg w reminder userEmail name tt)
         = [EmailjsSend]).
Proof.
  rewrite sendEmail_run.
  destruct (email_configured cfg); cbn.
  - destruct (emailjs_send w) as [[[]|err]|]; cbn;
      (split; [discriminate|]); (split; [|split; [discriminate|auto]]);
      split; try discriminate; auto; intros [_ H]; discriminate.
  - split; [discriminate|]. split; [|split; auto].
    split; [discriminate|]. intros [H _]. discriminate.
Qed.

(** X16.  [sendSMSNotification] never rejects.  It yields [true] only
    when the configuration is complete, the credentials encode, the
    request is answered, the body parses and the response is ok; without
    the complete configuration, or when the credentials do not encode, it
    makes no request and yields [false]; a rejected request, a body that
    does not parse and a response that is not ok all yield [false]. *)
Theorem sendSMSNotification_result (cfg : config) (w : world)
    (reminder : Reminder.t) (phoneNumber : string) :
  (forall err,
      outcome (sendSMSNotification cfg w reminder phoneNumber tt)
      <> Settled (Js.Throw err))
  /\ (outcome (sendSMSNotification cfg w reminder phoneNumber tt)
       = Settled (Js.Ok true) ->
      sms_configured cfg = true /\ btoa w = Js.Ok tt
      /\ exists text,
           twilio_fetch w
           = Settled (Js.Ok (mkTwilio true (Settled (Js.Ok text)))))
  /\ (sms_configured cfg = false \/ btoa w <> Js.Ok tt ->
      sendSMSNotification cfg w reminder phoneNumber tt
      = Run tt [] (Settled (Js.Ok false)))
  /\ (forall response,
        twilio_fetch w = Settled (Js.Ok response) ->
        json response <> Pending ->
        ok response = false \/ (exists err, json response
                                           = Settled (Js.Throw err)) ->
        outcome (sendSMSNotification cfg w reminder phoneNumber tt)
        = Settled (Js.Ok false))
  /\ (forall err,
        twilio_fetch w = Settled (Js.Throw err) ->
        outcome (sendSMSNotification cfg w reminder phoneNumber tt)
        = Settled (Js.Ok false)).
Proof.
  rewrite sendSMS_run.
  destruct (sms_configured cfg); cbn.
  - destruct (btoa w) as [[]|e0]; cbn.
    + split; [|split; [|split; [|split]]].
      * intros err.
        destruct (twilio_fetch w) as [[[k j]|e1]|]; cbn; try discriminate.
        destruct j as [[text|e2]|]; discriminate.
      * destruct (twilio_fetch w) as [[[k j]|e1]|]; cbn; try discriminate.
        destruct j as [[text|e2]|]; cbn; try discriminate.
        intros [= ->]. eauto.
      * intros [H|H]; [discriminate|congruence].
      * intros response -> Hj [Hk | [err He]].
        -- rewrite Hk. destruct (json response) as [[text|e2]|];
             [reflexivity|reflexivity|contradiction].
        -- rewrite He. reflexivity.
      * intros err ->. reflexivity.
    + split; [discriminate|]. split; [discriminate|].
      split; [reflexivity|]. split.
      * intros response Hf Hj H. reflexivity.
      * reflexivity.
  - split; [discriminate|]. split; [discriminate|].
    split; [reflexivity|]. split.
    + intros response Hf Hj H. reflexivity.
    + reflexivity.
Qed.

Lemma localChannel_stays (cfg : config) (w : world) (r : Reminder.t) :
  stays_in (requested cfg r) (localChannel w r).
Proof.
  unfold localChannel. apply stays_try_catch.
  - apply stays_bind; [apply stays_perform; exact I|]. intros _.
    destruct (notification_defined w && permission_granted w).
    + apply stays_bind; [apply stays_perform; exact I|]. intros _.
      apply stays_silent.
    + destruct (notification_defined w); intros s x H; inversion H.
  - intros e s x H. inversion H.
Qed.

Lemma emailChannel_stays (cfg : config) (userEmail : string) (w : world)
    (r : Reminder.t) :
  stays_in (requested cfg r) (emailChannel cfg userEmail w r).
Proof.
  unfold emailChannel.
  destruct (Reminder.emailNotification r) eqn:Hr;
    [|intros s x H; inversion H].
  apply stays_try_catch; [|intros e s x H; inversion H].
  apply stays_bind; [apply stays_perform; exact Hr|]. intros _.
  apply stays_bind; [apply stays_silent|]. intros _.
  apply stays_bind; [apply stays_silent|]. intros name.
  apply stays_bind; [|intros b s x H; inversion H].
  intros [] x. rewrite sendEmail_run.
  destruct (email_configured cfg) eqn:Hc; cbn.
  - intros [->|H]%elem_of_cons; [cbn; auto|inversion H].
  - intros H. inversion H.
Qed.

Lemma smsChannel_stays (cfg : config) (w : world) (r : Reminder.t) :
  stays_in (requested cfg r) (smsChannel cfg w r).
Proof.
  unfold smsChannel.
  destruct (Reminder.smsNotification r) eqn:Hr;
    [|intros s x H; inversion H].
  destruct (Js.truthy_opt (Reminder.phoneNumber r)) eqn:Hp;
    [|intros s x H; inversion H].
  cbn [andb].
  apply stays_try_catch; [|intros e s x H; inversion H].
  apply stays_bind; [apply stays_perform; cbn; auto|]. intros _.
  apply stays_bind; [apply stays_silent|]. intros _.
  apply stays_bind; [|intros b s x H; inversion H].
  intros [] x. rewrite sendSMS_run.
  destruct (sms_configured cfg) eqn:Hc; cbn;
    [|intros H; inversion H].
  destruct (btoa w); cbn; [|intros H; inversion H].
  intros [->|H]%elem_of_cons; [cbn; auto|inversion H].
Qed.

(** X17.  The dispatch of a reminder does only what the reminder asks for
    and the configuration allows, whatever the browser and the providers
    answer: it enters the email channel only if email is requested, the
    SMS channel only if SMS is requested with a phone number, and calls a
    provider only if, in addition, that provider is configured. *)
Theorem dispatch_only_requested (cfg : config) (userEmail : string)
    (w : world) (r : Reminder.t) (x : event) :
  x ∈ calls (sendNotification cfg userEmail w r tt) -> requested cfg r x.
Proof.
  revert x. change (stays_in (requested cfg r)
                      (sendNotification cfg userEmail w r)) with
    (forall s x, x ∈ calls (sendNotification cfg userEmail w r s) ->
                 requested cfg r x) in *.
  assert (stays_in (requested cfg r) (sendNotification cfg userEmail w r))
    as H.
  { unfold sendNotification.
    apply stays_bind; [apply localChannel_stays|]. intros _.
    apply stays_bind; [apply emailChannel_stays|]. intros _.
    apply stays_bind; [apply smsChannel_stays|]. intros _.
    apply stays_perform. exact I. }
  exact (H tt).
Qed.

(** X18.  A reminder saved by the reminder form keeps a phone number only
    when SMS is checked, and its dispatch enters the SMS channel only if
    SMS was checked and the phone field was not empty; a reminder saved
    with SMS unchecked never reaches the SMS provider. *)
Theorem saved_reminder_sms (trim : string -> string)
    (f : ReminderModal.form) (id : string) (cfg : config)
    (userEmail : string) (w : world) :
  (ReminderModal.smsNotification f = false ->
     Reminder.phoneNumber (ReminderModal.reminderData trim f id) = None)
  /\ (Enter SMS ∈ calls (sendNotification cfg userEmail w
                          (ReminderModal.reminderData trim f id) tt) ->
      ReminderModal.smsNotification f = true
      /\ ReminderModal.phoneNumber f <> EmptyString)
  /\ (TwilioFetch ∈ calls (sendNotification cfg userEmail w
                            (ReminderModal.reminderData trim f id) tt) ->
      ReminderModal.smsNotification f = true
      /\ ReminderModal.phoneNumber f <> EmptyString
      /\ sms_configured cfg = true).
Proof.
  assert (forall x,
             x ∈ calls (sendNotification cfg userEmail w
                          (ReminderModal.reminderData trim f id) tt) ->
             requested cfg (ReminderModal.reminderData trim f id) x) as H.
  { intros x. revert x.
    assert (stays_in (requested cfg (ReminderModal.reminderData trim f id))
              (sendNotification cfg userEmail w
                 (ReminderModal.reminderData trim f id))) as Hs.
    { unfold sendNotification.
      apply stays_bind; [apply localChannel_stays|]. intros _.
      apply stays_bind; [apply emailChannel_stays|]. intros _.
      apply stays_bind; [apply smsChannel_stays|]. intros _.
      apply stays_perform. exact I. }
    exact (Hs tt). }
  split; [|split].
  - cbn. intros ->. reflexivity.
  - intros Hx. apply H in Hx. cbn in Hx. destruct Hx as [Hs Hp].
    split; [exact Hs|]. rewrite Hs in Hp. cbn in Hp. intros E.
    rewrite E in Hp. discriminate.
  - intros Hx. apply H in Hx. cbn in Hx. destruct Hx as (Hs & Hp & Hc).
    split; [exact Hs|]. split; [|exact Hc].
    rewrite Hs in Hp. cbn in Hp. intros E. rewrite E in Hp. discriminate.
Qed.
End DispatchFacts.

(** ** The reminders panel between edits *)

Section ReminderFacts.
Import Async NotificationService RemindersPanel.
Variable parseISO : string -> option Z.
Variable cfg : config.
Variable userEmail : string.

Abbreviation checkReminder := (checkReminder parseISO cfg userEmail).
Abbreviation checkReminders := (checkReminders parseISO cfg userEmail).
Abbreviation runs := (runs parseISO cfg userEmail).
Abbreviation fires := (fires parseISO).

Lemma checkReminder_fst (w : Reminder.t -> world) (now : Z)
    (r : Reminder.t) :
  fst (checkReminder w now r) = r
  \/ (fst (checkReminder w now r) = Reminder.with_notificationSent true r
      /\ fires now r = true).
Proof.
  unfold RemindersPanel.checkReminder, RemindersPanel.fires.
  destruct (negb (Reminder.notificationSent r)
            && negb (Reminder.isComplete r)); cbn; [|auto].
  destruct (RemindersPanel.isAfter_due parseISO now r); cbn; auto.
Qed.

Lemma checkReminder_erased (w : Reminder.t -> world) (now : Z)
    (r : Reminder.t) :
  Reminder.with_notificationSent true (fst (checkReminder w now r)) =
  Reminder.with_notificationSent true r.
Proof.
  destruct (checkReminder_fst w now r) as [-> | [-> _]]; reflexivity.
Qed.

Lemma checkReminder_dispatch (w : Reminder.t -> world) (now : Z)
    (r : Reminder.t) (d : dispatch) :
  snd (checkReminder w now r) = Some d ->
  fst d = r /\ fires now r = true.
Proof.
  unfold RemindersPanel.checkReminder, RemindersPanel.fires.
  destruct (negb (Reminder.notificationSent r)
            && negb (Reminder.isComplete r)); cbn; [|discriminate].
  destruct (RemindersPanel.isAfter_due parseISO now r); cbn;
    [|discriminate].
  intros [= <-]. auto.
Qed.

Lemma pass_reminders (w : Reminder.t -> world) (now : Z) (p : panel) :
  reminders (next (checkReminders w now p)) =
  map (fun r => fst (checkReminder w now r)) (reminders p).
Proof.
  unfold RemindersPanel.checkReminders.
  rewrite <- (map_map (checkReminder w now) fst).
  destruct (flag_changed _ _) eqn:E; cbn; [reflexivity|].
  revert E. unfold flag_changed.
  induction (reminders p) as [|r rs IH]; [reflexivity|].
  cbn [map zip zip_with existsb].
  intros [E1 E2]%orb_false_iff. rewrite <- (IH E2). f_equal.
  destruct (checkReminder_fst w now r) as [-> | [Hr Hf]]; [reflexivity|].
  rewrite Hr in E1. cbn in E1.
  unfold RemindersPanel.fires in Hf.
  destruct (Reminder.notificationSent r); cbn in *; discriminate.
Qed.

Lemma pass_dispatched (w : Reminder.t -> world) (now : Z) (p : panel)
    (d : dispatch) :
  d ∈ dispatched (checkReminders w now p) ->
  fst d ∈ reminders p /\ fires now (fst d) = true.
Proof.
  unfold RemindersPanel.checkReminders.
  assert (d ∈ omap snd (map (checkReminder w now) (reminders p)) ->
          fst d ∈ reminders p /\ fires now (fst d) = true) as H.
  { intros (x & Hx & Hd)%list_elem_of_omap.
    apply list_elem_of_fmap in Hx as (r & -> & Hr).
    apply checkReminder_dispatch in Hd as [<- F]. auto. }
  destruct (flag_changed _ _); cbn; exact H.
Qed.

(** A property of reminders that does not depend on [notificationSent]
    holds of every reminder throughout a run, and of every reminder
    dispatched in it. *)
Lemma runs_invariant (P : Reminder.t -> Prop) (p q : panel)
    (log : list dispatch) :
  (forall r, P r -> P (Reminder.with_notificationSent true r)) ->
  runs p log q ->
  (forall r, r ∈ reminders p -> P r) ->
  (forall r, r ∈ reminders q -> P r)
  /\ (forall d, d ∈ log -> P (fst d) /\ Reminder.isComplete (fst d) = false).
Proof.
  intros HP Hrun.
  induction Hrun as [p|p sorted log q Hperm _ IH|p w now log q _ IH];
    intros Hp.
  - split; [exact Hp|]. intros d H. inversion H.
  - apply IH. cbn. intros r Hr. apply Hp. rewrite <- Hperm. exact Hr.
  - destruct IH as [IHq IHlog].
    { intros r. rewrite pass_reminders.
      intros (x & -> & Hx)%list_elem_of_fmap.
      destruct (checkReminder_fst w now x) as [-> | [-> _]]; auto. }
    split; [exact IHq|].
    intros d [H|H]%elem_of_app; [|auto].
    apply pass_dispatched in H as [Hin F]. split; [auto|].
    unfold RemindersPanel.fires in F.
    destruct (Reminder.isComplete (fst d)); [|reflexivity].
    rewrite andb_false_r in F. discriminate.
Qed.

(** X19.  Between edits the panel only ever sets [notificationSent]: for
    every run of due-check passes and renders, the reminders at the end
    are, the notification flag apart, those at the start in some order,
    and every dispatch is for a reminder that the panel held at the
    start, unchanged. *)
Theorem runs_only_flag (p q : panel) (log : list dispatch) :
  runs p log q ->
  Reminder.with_notificationSent true <$> reminders q
    ≡ₚ Reminder.with_notificationSent true <$> reminders p
  /\ (forall d, d ∈ log -> fst d ∈ reminders p).
Proof.
  intros Hrun.
  induction Hrun as [p|p sorted log q Hperm _ IH|p w now log q Hrest IH].
  - split; [reflexivity|]. intros d H. inversion H.
  - destruct IH as [IHq IHlog]. cbn in IHq, IHlog. split.
    + rewrite IHq, Hperm. reflexivity.
    + intros d Hd. rewrite <- Hperm. auto.
  - destruct IH as [IHq IHlog]. split.
    + rewrite IHq, pass_reminders, <- list_fmap_compose.
      erewrite list_fmap_ext; [reflexivity|].
      intros i x _. cbn. apply checkReminder_erased.
    + intros d [H|H]%elem_of_app.
      * apply pass_dispatched in H. tauto.
      * pose proof (IHlog d H) as Hin. rewrite pass_reminders in Hin.
        apply list_elem_of_fmap in Hin as (x & Hd & Hx).
        destruct (checkReminder_fst w now x) as [E | [E _]];
          rewrite E in Hd; [congruence|].
        pose proof (runs_dispatch_unsent _ _ _ _ _ _ d Hrest H) as Hs.
        rewrite Hd in Hs. discriminate.
Qed.

(** X20.  Deleting a reminder removes every reminder with that id from
    the panel and from the stored collection, keeps the others in order,
    and silences it: in every run that follows, no reminder with that id
    is held or dispatched. *)
Theorem deleted_is_silent (reminderId : string) (p q : panel)
    (log : list dispatch) :
  runs (handleDeleteReminder reminderId p) log q ->
  stored (handleDeleteReminder reminderId p)
    = Some (reminders (handleDeleteReminder reminderId p))
  /\ (forall r, r ∈ reminders (handleDeleteReminder reminderId p) <->
                r ∈ reminders p /\ Reminder.id r <> reminderId)
  /\ reminders (handleDeleteReminder reminderId p) `sublist_of` reminders p
  /\ (forall r, r ∈ reminders q -> Reminder.id r <> reminderId)
  /\ (forall d, d ∈ log -> Reminder.id (fst d) <> reminderId).
Proof.
  intros Hrun.
  split; [reflexivity|].
  assert (forall r, r ∈ reminders (handleDeleteReminder reminderId p) <->
                    r ∈ reminders p /\ Reminder.id r <> reminderId) as Hin.
  { intros r. cbn. rewrite list_elem_of_filter. tauto. }
  split; [exact Hin|].
  split; [cbn; apply sublist_filter|].
  destruct (runs_invariant (fun r => Reminder.id r <> reminderId)
              _ _ _ (fun r H => H) Hrun) as [Hq Hlog].
  { intros r Hr. apply Hin in Hr. tauto. }
  split; [exact Hq|]. intros d Hd. apply Hlog, Hd.
Qed.

(** X21.  Marking a reminder complete silences it: when the reminders
    with the toggled id were all incomplete, no run that follows the
    toggle dispatches a reminder with that id. *)
Theorem completed_is_silent (reminderId : string) (p q : panel)
    (log : list dispatch) :
  (forall r, r ∈ reminders p -> Reminder.id r = reminderId ->
             Reminder.isComplete r = false) ->
  runs (toggleReminderComplete reminderId p) log q ->
  forall d, d ∈ log -> Reminder.id (fst d) <> reminderId.
Proof.
  intros Hopen Hrun d Hd.
  destruct (runs_invariant
              (fun r => Reminder.id r = reminderId ->
                        Reminder.isComplete r = true)
              _ _ _ (fun r H => H) Hrun) as [_ Hlog].
  { cbn. intros r (x & -> & Hx)%list_elem_of_fmap.
    destruct (decide (Reminder.id x = reminderId)) as [E|E]; cbn.
    - intros _. rewrite (Hopen x Hx E). reflexivity.
    - intros E'. contradiction. }
  destruct (Hlog d Hd) as [Hc Ho]. intros E.
  rewrite (Hc E) in Ho. discriminate.
Qed.

End ReminderFacts.

(** ** The facts above on the standup reminder *)

Section StandupExamples.
Import Async NotificationService RemindersPanel.

Lemma sendEmailNotification_result_example :
  email_configured unconfigured = false
  /\ sendEmailNotification unconfigured email_failing_world standup user
       None tt
     = Run tt [] (Settled (Js.Ok false)).
Proof.
  split; [reflexivity|].
  exact (proj1 (proj2 (proj2 (sendEmailNotification_result unconfigured
                                email_failing_world standup user None)))
           eq_refl).
Defined.

Lemma sendSMSNotification_result_example :
  sms_configured unconfigured = false
  /\ sendSMSNotification unconfigured email_failing_world standup
       "+15550123" tt
     = Run tt [] (Settled (Js.Ok false)).
Proof.
  split; [reflexivity|].
  exact (proj1 (proj2 (proj2 (sendSMSNotification_result unconfigured
                                email_failing_world standup "+15550123")))
           (or_introl eq_refl)).
Defined.

Lemma dispatch_only_requested_example :
  TwilioFetch
    ∈ calls (sendNotification all_configured user email_failing_world
               standup tt)
  /\ requested all_configured standup TwilioFetch.
Proof.
  assert (TwilioFetch
            ∈ calls (sendNotification all_configured user
                       email_failing_world standup tt)) as Hin.
  { apply (list_elem_of_lookup_2 _ 5%nat). reflexivity. }
  split; [exact Hin|].
  exact (dispatch_only_requested all_configured user email_failing_world
           standup TwilioFetch Hin).
Defined.

Lemma saved_reminder_sms_example :
  ReminderModal.smsNotification rescheduling = false
  /\ Reminder.phoneNumber rescheduled_standup = None.
Proof.
  split; [reflexivity|].
  exact (proj1 (saved_reminder_sms (fun s => s) rescheduling "r1"
                  all_configured user email_failing_world)
           eq_refl).
Defined.

Lemma runs_only_flag_example :
  runs sample_parseISO all_configured user standup_panel
    (dispatched
       (checkReminders sample_parseISO all_configured user
          (fun _ => email_failing_world) (nine_o_clock + 1) standup_panel)
     ++ [])%list
    (next
       (checkReminders sample_parseISO all_configured user
          (fun _ => email_failing_world) (nine_o_clock + 1) standup_panel))
  /\ Reminder.with_notificationSent true <$>
       reminders
         (next
            (checkReminders sample_parseISO all_configured user
               (fun _ => email_failing_world) (nine_o_clock + 1)
               standup_panel))
     ≡ₚ Reminder.with_notificationSent true <$> reminders standup_panel.
Proof.
  assert (runs sample_parseISO all_configured user standup_panel
            (dispatched
               (checkReminders sample_parseISO all_configured user
                  (fun _ => email_failing_world) (nine_o_clock + 1)
                  standup_panel)
             ++ [])%list
            (next
               (checkReminders sample_parseISO all_configured user
                  (fun _ => email_failing_world) (nine_o_clock + 1)
                  standup_panel))) as Hrun.
  { apply runs_pass, runs_done. }
  split; [exact Hrun|].
  exact (proj1 (runs_only_flag sample_parseISO all_configured user
                  _ _ _ Hrun)).
Defined.

Lemma deleted_is_silent_example :
  runs sample_parseISO all_configured user
    (handleDeleteReminder "r1" standup_panel)
    (dispatched
       (checkReminders sample_parseISO all_configured user
          (fun _ => email_failing_world) (nine_o_clock + 1)
          (handleDeleteReminder "r1" standup_panel))
     ++ [])%list
    (next
       (checkReminders sample_parseISO all_configured user
          (fun _ => email_failing_world) (nine_o_clock + 1)
          (handleDeleteReminder "r1" standup_panel)))
  /\ Forall (fun d : dispatch => Reminder.id (fst d) <> "r1")
       (dispatched
          (checkReminders sample_parseISO all_configured user
             (fun _ => email_failing_world) (nine_o_clock + 1)
             (handleDeleteReminder "r1" standup_panel))
        ++ [])%list.
Proof.
  assert (runs sample_parseISO all_configured user
            (handleDeleteReminder "r1" standup_panel)
            (dispatched
               (checkReminders sample_parseISO all_configured user
                  (fun _ => email_failing_world) (nine_o_clock + 1)
                  (handleDeleteReminder "r1" standup_panel))
             ++ [])%list
            (next
               (checkReminders sample_parseISO all_configured user
                  (fun _ => email_failing_world) (nine_o_clock + 1)
                  (handleDeleteReminder "r1" standup_panel)))) as Hrun.
  { apply runs_pass, runs_done. }
  split; [exact Hrun|].
  apply Forall_forall.
  exact (proj2 (proj2 (proj2 (proj2
           (deleted_is_silent sample_parseISO all_configured user
              "r1" standup_panel _ _ Hrun))))).
Defined.

Lemma completed_is_silent_example :
  Reminder.isComplete standup = false
  /\ runs sample_parseISO all_configured user
       (toggleReminderComplete "r1" standup_panel)
       (dispatched
          (checkReminders sample_parseISO all_configured user
             (fun _ => email_failing_world) (nine_o_clock + 1)
             (toggleReminderComplete "r1" standup_panel))
        ++ [])%list
       (next
          (checkReminders sample_parseISO all_configured user
             (fun _ => email_failing_world) (nine_o_clock + 1)
             (toggleReminderComplete "r1" standup_panel)))
  /\ Forall (fun d : dispatch => Reminder.id (fst d) <> "r1")
       (dispatched
          (checkReminders sample_parseISO all_configured user
             (fun _ => email_failing_world) (nine_o_clock + 1)
             (toggleReminderComplete "r1" standup_panel))
        ++ [])%list.
Proof.
  assert (runs sample_parseISO all_configured user
            (toggleReminderComplete "r1" standup_panel)
            (dispatched
               (checkReminders sample_parseISO all_configured user
                  (fun _ => email_failing_world) (nine_o_clock + 1)
                  (toggleReminderComplete "r1" standup_panel))
             ++ [])%list
            (next
               (checkReminders sample_parseISO all_configured user
                  (fun _ => email_failing_world) (nine_o_clock + 1)
                  (toggleReminderComplete "r1" standup_panel)))) as Hrun.
  { apply runs_pass, runs_done. }
  assert (forall r, r ∈ reminders standup_panel ->
                    Reminder.id r = "r1" ->
                    Reminder.isComplete r = false) as Hopen.
  { intros r Hr _. apply list_elem_of_singleton in Hr as ->. reflexivity. }
  split; [reflexivity|]. split; [exact Hrun|].
  apply Forall_forall.
  exact (completed_is_silent sample_parseISO all_configured user
           "r1" standup_panel _ _ Hopen Hrun).
Defined.
End StandupExamples.

(** ** What a reload of the reminders panel shows *)

Section StorageFacts.
Import Async NotificationService RemindersPanel PanelStorage.

(** X23.  The stored collection follows the panel.  Every handler that
    changes the reminders writes the list it sets; due-check passes and
    renders keep the stored collection equal to the reminders of the
    panel up to their order; so a panel mounted anew over the storage
    shows the reminders held at the end of the run, notification flags
    included. *)
Theorem stored_follows_panel (parseISO : string -> option Z) (cfg : config)
    (userEmail : string) (p q : panel) (log : list dispatch) :
  in_step p ->
  runs parseISO cfg userEmail p log q ->
  in_step q
  /\ reminders (mount q) ≡ₚ reminders q
  /\ stored (mount q) = stored q
  /\ (forall newReminders p0, in_step (saveReminders newReminders p0)).
Proof.
  intros Hp Hrun.
  assert (in_step q) as Hq.
  { induction Hrun as [p|p sorted log q Hperm _ IH|p w now log q _ IH].
    - exact Hp.
    - apply IH. destruct Hp as (l & Hl & Hperm'). exists l. cbn.
      split; [exact Hl|]. rewrite Hperm', Hperm. reflexivity.
    - apply IH. rewrite checkReminders_unfold.
      destruct (existsb _ _); cbn; [|exact Hp].
      eexists. split; reflexivity. }
  split; [exact Hq|].
  destruct Hq as (l & Hl & Hperm). unfold mount, loadReminders. cbn.
  rewrite Hl. cbn. split; [exact Hperm|]. split; [reflexivity|].
  intros newReminders p0. exists newReminders. split; reflexivity.
Qed.

Lemma stored_follows_panel_example :
  in_step standup_panel
  /\ reminders
       (mount
          (next
             (checkReminders sample_parseISO all_configured user
                (fun _ => email_failing_world) (nine_o_clock + 1)
                standup_panel)))
     ≡ₚ [notified_standup].
Proof.
  assert (in_step standup_panel) as Hp.
  { exists [standup]. split; reflexivity. }
  split; [exact Hp|].
  exact (proj1 (proj2
           (stored_follows_panel sample_parseISO all_configured user
              standup_panel _ _ Hp
              (runs_pass sample_parseISO all_configured user
                 standup_panel (fun _ => email_failing_world)
                 (nine_o_clock + 1) [] _
                 (runs_done sample_parseISO all_configured user _))))).
Defined.
End StorageFacts.
